(** * Verification model of the CursorCanvas MCP bridge (server/src/index.ts)

    Shallow embedding of the relay between the MCP/chat side and the Figma
    plugin: the pending-invocation map, the HTTP command queue, the parked
    long-poll slot, the two planners, the chat gate and the port negotiator.
    Asynchronous callbacks are modelled as events applied to an explicit
    relay state; effects outside the process (the plugin, the OpenAI
    endpoint, the OS port table) are parameters. *)

From Stdlib Require Import String Ascii List Bool ZArith Lia.
Import ListNotations.
Open Scope string_scope.
Open Scope list_scope.
Set Warnings "-register-all".

(* ------------------------------------------------------------------ *)
(** ** JavaScript values and string helpers *)

(** JSON-like values as they travel through [JSON.parse]/[JSON.stringify]. *)
Inductive JVal : Type :=
| JUndef
| JNull
| JBool (b : bool)
| JNum (z : Z)
| JStr (s : string)
| JArr (xs : list JVal)
| JObj (fields : list (string * JVal)).

(** [type JsonObject = Record<string, unknown>] *)
Definition JsonObject := list (string * JVal).

(** ECMAScript white space restricted to the ASCII range
    (TAB, LF, VT, FF, CR, SPACE). *)
Definition is_ws (c : ascii) : bool :=
  let n := nat_of_ascii c in
  (Nat.eqb n 9 || Nat.eqb n 10 || Nat.eqb n 11 || Nat.eqb n 12
   || Nat.eqb n 13 || Nat.eqb n 32)%bool.

Fixpoint trim_start (s : string) : string :=
  match s with
  | EmptyString => EmptyString
  | String c r => if is_ws c then trim_start r else s
  end.

Definition rev_string (s : string) : string :=
  string_of_list_ascii (List.rev (list_ascii_of_string s)).

(** [String.prototype.trim] *)
Definition trim (s : string) : string :=
  rev_string (trim_start (rev_string (trim_start s))).

(** JavaScript truthiness of a string: only [""] is falsy. *)
Definition truthy_str (s : string) : bool :=
  negb (String.eqb s "").

(** [s.trim() || null] *)
Definition trim_or_null (s : string) : option string :=
  let t := trim s in if truthy_str t then Some t else None.

Definition lower_ascii (c : ascii) : ascii :=
  let n := nat_of_ascii c in
  if (Nat.leb 65 n && Nat.leb n 90)%bool then ascii_of_nat (n + 32) else c.

(** [String.prototype.toLowerCase], ASCII letters. *)
Fixpoint to_lower (s : string) : string :=
  match s with
  | EmptyString => EmptyString
  | String c r => String (lower_ascii c) (to_lower r)
  end.

(** [String.prototype.includes] *)
Fixpoint includes (s sub : string) : bool :=
  if String.prefix sub s then true
  else match s with
       | EmptyString => false
       | String _ r => includes r sub
       end.

(* ------------------------------------------------------------------ *)
(** ** The relay state: [pluginSocket], [pending], [httpCommandQueue],
    [waitingGetRes], [lastFigmaPrompt] *)

Module Relay.

(** A WebSocket as seen by the server: an identity and its [readyState]
    (1 = OPEN). *)
Record Sock := mkSock { sock_name : nat; sock_ready : nat }.

(** [{ id, tool, params }] as queued and sent to the plugin. *)
Record Cmd := mkCmd { cmd_id : string; cmd_tool : string; cmd_params : JsonObject }.

(** Bodies written with [writeJson]. *)
Inductive Payload : Type :=
| PCmd (c : Cmd)
| PEmpty.

(** How a pending promise was settled. *)
Inductive Outcome : Type :=
| Resolved (v : JVal)
| Rejected (msg : string).

Record St := mkSt {
  pluginSocket : option Sock;
  pending : list string;                 (* keys of the [pending] Map, in insertion order *)
  httpCommandQueue : list Cmd;
  waitingGetRes : option nat;            (* the parked [http.ServerResponse] *)
  lastFigmaPrompt : option string;
  wsSent : list (nat * Cmd);             (* [pluginSocket.send(...)] log *)
  httpWritten : list (nat * Z * Payload);(* [writeJson(res, status, body)] log *)
  settled : list (string * Outcome)      (* resolve/reject calls, by id *)
}.

Definition init : St := mkSt None [] [] None None [] [] [].

Definition set_socket (s : option Sock) (st : St) : St :=
  mkSt s (pending st) (httpCommandQueue st) (waitingGetRes st)
       (lastFigmaPrompt st) (wsSent st) (httpWritten st) (settled st).
Definition set_pending (p : list string) (st : St) : St :=
  mkSt (pluginSocket st) p (httpCommandQueue st) (waitingGetRes st)
       (lastFigmaPrompt st) (wsSent st) (httpWritten st) (settled st).
Definition set_queue (q : list Cmd) (st : St) : St :=
  mkSt (pluginSocket st) (pending st) q (waitingGetRes st)
       (lastFigmaPrompt st) (wsSent st) (httpWritten st) (settled st).
Definition set_waiting (w : option nat) (st : St) : St :=
  mkSt (pluginSocket st) (pending st) (httpCommandQueue st) w
       (lastFigmaPrompt st) (wsSent st) (httpWritten st) (settled st).
Definition set_prompt (p : option string) (st : St) : St :=
  mkSt (pluginSocket st) (pending st) (httpCommandQueue st) (waitingGetRes st)
       p (wsSent st) (httpWritten st) (settled st).
Definition send_ws (n : nat) (c : Cmd) (st : St) : St :=
  mkSt (pluginSocket st) (pending st) (httpCommandQueue st) (waitingGetRes st)
       (lastFigmaPrompt st) (wsSent st ++ [(n, c)]) (httpWritten st) (settled st).
(** [writeJson(res, status, payload)] *)
Definition writeJson (r : nat) (status : Z) (p : Payload) (st : St) : St :=
  mkSt (pluginSocket st) (pending st) (httpCommandQueue st) (waitingGetRes st)
       (lastFigmaPrompt st) (wsSent st) (httpWritten st ++ [(r, status, p)]) (settled st).
Definition settle (i : string) (o : Outcome) (st : St) : St :=
  mkSt (pluginSocket st) (pending st) (httpCommandQueue st) (waitingGetRes st)
       (lastFigmaPrompt st) (wsSent st) (httpWritten st) (settled st ++ [(i, o)]).

(** [pending.has(id)] *)
Definition has (i : string) (p : list string) : bool :=
  existsb (String.eqb i) p.

(** [pending.set(id, ...)]: a new key is appended, an existing key keeps
    its place. *)
Definition map_set (i : string) (p : list string) : list string :=
  if has i p then p else p ++ [i].

(** [pending.delete(id)] *)
Definition map_delete (i : string) (p : list string) : list string :=
  filter (fun k => negb (String.eqb i k)) p.

(** [pluginSocket && pluginSocket.readyState === 1] *)
Definition socket_open (st : St) : bool :=
  match pluginSocket st with
  | Some s => Nat.eqb (sock_ready s) 1
  | None => false
  end.

(** The fallback branch of [sendToPlugin]: [httpCommandQueue.push(cmd)],
    then, if a poll is parked, [shift()] the oldest entry into it. *)
Definition enqueueForPoll (c : Cmd) (st : St) : St :=
  let st1 := set_queue (httpCommandQueue st ++ [c]) st in
  match waitingGetRes st1 with
  | Some r =>
      match httpCommandQueue st1 with
      | c0 :: rest => set_waiting None (writeJson r 200 (PCmd c0) (set_queue rest st1))
      | [] => st1
      end
  | None => st1
  end.

(** [sendToPlugin(id, tool, params)], synchronous part (the 20 s timer is
    the separate event [timeoutFire]). *)
Definition sendToPlugin (id tool : string) (params : JsonObject) (st : St) : St :=
  let st1 := set_pending (map_set id (pending st)) st in
  let c := mkCmd id tool params in
  match pluginSocket st1 with
  | Some s => if Nat.eqb (sock_ready s) 1 then send_ws (sock_name s) c st1
              else enqueueForPoll c st1
  | None => enqueueForPoll c st1
  end.

(** The [setTimeout(..., 20000)] callback of [sendToPlugin]. *)
Definition timeoutFire (id : string) (st : St) : St :=
  if has id (pending st)
  then settle id (Rejected "Plugin timeout") (set_pending (map_delete id (pending st)) st)
  else st.

(** The settle-by-id step shared by the [/result] handler and the socket
    message handler:
    [if (msg.id && pending.has(msg.id)) { ...; if (msg.error) reject else resolve }]. *)
Definition deliverReply (mid : option string) (result : JVal) (error : option string)
    (st : St) : St :=
  match mid with
  | Some i =>
      if (truthy_str i && has i (pending st))%bool then
        let st1 := set_pending (map_delete i (pending st)) st in
        match error with
        | Some e => if truthy_str e then settle i (Rejected e) st1
                    else settle i (Resolved result) st1
        | None => settle i (Resolved result) st1
        end
      else st
  | None => st
  end.

(** Body of [POST /result] after [parseJsonSafe]. *)
Record ResultMsg := mkResultMsg
  { r_id : option string; r_result : JVal; r_error : option string }.

(** [POST /result] handler. *)
Definition handleResult (res : nat) (m : ResultMsg) (st : St) : St :=
  writeJson res 200 PEmpty (deliverReply (r_id m) (r_result m) (r_error m) st).

(** A parsed socket message. *)
Record WsMsg := mkWsMsg
  { m_type : option string; m_text : option string;
    m_id : option string; m_result : JVal; m_error : option string }.

Definition is_prompt_msg (m : WsMsg) : bool :=
  match m_type m, m_text m with
  | Some ty, Some _ => String.eqb ty "figma_prompt"
  | _, _ => false
  end.

(** [ws.on("message", ...)] handler. *)
Definition wsMessage (m : WsMsg) (st : St) : St :=
  match m_type m, m_text m with
  | Some ty, Some t =>
      if String.eqb ty "figma_prompt" then set_prompt (trim_or_null t) st
      else deliverReply (m_id m) (m_result m) (m_error m) st
  | _, _ => deliverReply (m_id m) (m_result m) (m_error m) st
  end.

(** [wss.on("connection", ws => { pluginSocket = ws; ... })] *)
Definition wsConnection (s : Sock) (st : St) : St := set_socket (Some s) st.

(** [ws.on("close", () => { if (pluginSocket === ws) pluginSocket = null; })] *)
Definition wsClose (n : nat) (st : St) : St :=
  match pluginSocket st with
  | Some s => if Nat.eqb (sock_name s) n then set_socket None st else st
  | None => st
  end.

(** [GET /poll] handler. *)
Definition handlePoll (res : nat) (st : St) : St :=
  match httpCommandQueue st with
  | c :: rest => writeJson res 200 (PCmd c) (set_queue rest st)
  | [] => set_waiting (Some res) st
  end.

(** [res.on("close", () => { if (waitingGetRes === res) waitingGetRes = null; })] *)
Definition pollClose (res : nat) (st : St) : St :=
  match waitingGetRes st with
  | Some r => if Nat.eqb r res then set_waiting None st else st
  | None => st
  end.

(** [POST /prompt] handler: [typeof msg.text === "string" ? msg.text.trim() || null : null]. *)
Definition handlePrompt (res : nat) (text : option string) (st : St) : St :=
  writeJson res 200 PEmpty
    (set_prompt (match text with Some t => trim_or_null t | None => None end) st).

(** Reply of the [get_figma_prompt] tool. *)
Inductive PromptReply : Type :=
| PromptText (t : string)          (* [JSON.stringify({ prompt: text })] *)
| NoPrompt.                        (* [{ prompt: null, message: "No prompt from Figma." }] *)

(** [get_figma_prompt] branch of the MCP [CallToolRequestSchema] handler. *)
Definition getFigmaPrompt (st : St) : PromptReply * St :=
  let text := lastFigmaPrompt st in
  let st1 := set_prompt None st in
  (match text with Some t => PromptText t | None => NoPrompt end, st1).

(** Everything that can run on the event loop and touch relay state. *)
Inductive Event : Type :=
| EvDispatch (id tool : string) (params : JsonObject)
| EvTimeout (id : string)
| EvResult (res : nat) (m : ResultMsg)
| EvWsMessage (m : WsMsg)
| EvConnect (s : Sock)
| EvClose (n : nat)
| EvPoll (res : nat)
| EvPollClose (res : nat)
| EvPrompt (res : nat) (text : option string)
| EvGetPrompt.

Definition step (e : Event) (st : St) : St :=
  match e with
  | EvDispatch i t p => sendToPlugin i t p st
  | EvTimeout i => timeoutFire i st
  | EvResult r m => handleResult r m st
  | EvWsMessage m => wsMessage m st
  | EvConnect s => wsConnection s st
  | EvClose n => wsClose n st
  | EvPoll r => handlePoll r st
  | EvPollClose r => pollClose r st
  | EvPrompt r t => handlePrompt r t st
  | EvGetPrompt => snd (getFigmaPrompt st)
  end.

Fixpoint run (evs : list Event) (st : St) : St :=
  match evs with
  | [] => st
  | e :: rest => run rest (step e st)
  end.

End Relay.

(* ------------------------------------------------------------------ *)
(** ** Concrete scenarios and claim predicates over the relay *)

Module RelayScenarios.
Import Relay.

(** An invocation is dispatched over an open socket, which then closes. *)
Definition close_events : list Event :=
  [EvConnect (mkSock 1 1); EvDispatch "chat-tool-1" "create_frame" []].

(** The disconnect-flush property: closing socket [n] rejects every
    invocation that was pending. *)
Definition close_flushes (st : St) (n : nat) : Prop :=
  forall i, has i (pending st) = true ->
    has i (pending (wsClose n st)) = false /\
    exists r, In (i, Rejected r) (settled (wsClose n st)).

(** A poll response [r] is either still parked or has been written to. *)
Definition answered_or_parked (r : nat) (st : St) : Prop :=
  waitingGetRes st = Some r \/ exists s p, In (r, s, p) (httpWritten st).

(** Events that are not a new dispatch of id [i]. *)
Definition no_redispatch (i : string) (evs : list Event) : Prop :=
  Forall (fun e => match e with EvDispatch j _ _ => j <> i | _ => True end) evs.

End RelayScenarios.

(* ------------------------------------------------------------------ *)
(** ** Audit records and chat messages *)

(** [interface ExecutedToolCall { tool; params; result?; error? }] *)
Record ExecutedToolCall := mkExec
  { tc_tool : string; tc_params : JsonObject; tc_result : option JVal; tc_error : option string }.

(** [interface ChatMessage { role; content }] *)
Record ChatMessage := mkChatMessage { cm_role : string; cm_content : string }.

(* ------------------------------------------------------------------ *)
(** ** The remote-model planner ([runOpenAIAgent]) *)

Module OpenAI.

(** An element of an output item's [content] array. *)
Record Part := mkPart { part_type : option string; part_text : option string }.

(** An element of [response.output]; [None] stands for a field that is
    absent or not of the type the code tests with [typeof]/[Array.isArray]. *)
Record Item := mkItem
  { item_type : option string; item_name : option string;
    item_call_id : option string; item_arguments : option string;
    item_content : option (list (option Part)) }.

(** [interface OpenAIResponse { id; output_text?; output? }] *)
Record Response := mkResponse
  { resp_id : string; output_text : option string; output : option (list Item) }.

(** [interface OpenAIFunctionCall { name; call_id; arguments }] *)
Record FunctionCall := mkCall { fc_name : string; fc_call_id : string; fc_arguments : string }.

(** [{ type: "function_call_output", call_id, output }]; [output] is the
    object that the code passes to [JSON.stringify]. *)
Record CallOutput := mkOutput { co_call_id : string; co_output : JVal }.

(** The bodies the loop posts to the Responses endpoint. *)
Inductive Request : Type :=
| ReqInitial (model : string) (designProfile researchContext : string)
             (input : list (string * string))
| ReqFollowUp (model : string) (previous_response_id : string) (input : list CallOutput).

Definition opt_list {A} (o : option (list A)) : list A :=
  match o with Some l => l | None => [] end.

(** [extractOpenAIFunctionCalls] *)
Definition extractOpenAIFunctionCalls (response : Response) : list FunctionCall :=
  flat_map (fun item =>
    match item_type item with
    | Some ty =>
        if String.eqb ty "function_call" then
          let args := match item_arguments item with Some a => a | None => "{}" end in
          match item_name item, item_call_id item with
          | Some name, Some callId =>
              if (truthy_str name && truthy_str callId)%bool
              then [mkCall name callId args] else []
          | _, _ => []
          end
        else []
    | None => []
    end) (opt_list (output response)).

(** The chunks collected from one [message] item. *)
Definition part_chunks (part : option Part) : list string :=
  match part with
  | Some p =>
      match part_type p, part_text p with
      | Some ty, Some t =>
          (if String.eqb ty "output_text" then [t] else [])
          ++ (if String.eqb ty "text" then [t] else [])
      | _, _ => []
      end
  | None => []
  end.

(** [extractOpenAIText] *)
Definition extractOpenAIText (response : Response) : string :=
  match output_text response with
  | Some s => if truthy_str (trim s) then trim s else
      trim (String.concat (String "010" EmptyString)
        (flat_map (fun item =>
           match item_type item with
           | Some ty => if String.eqb ty "message"
                        then flat_map part_chunks (opt_list (item_content item)) else []
           | None => []
           end) (opt_list (output response))))
  | None =>
      trim (String.concat (String "010" EmptyString)
        (flat_map (fun item =>
           match item_type item with
           | Some ty => if String.eqb ty "message"
                        then flat_map part_chunks (opt_list (item_content item)) else []
           | None => []
           end) (opt_list (output response))))
  end.

(** [conversation.slice(-20)] *)
Definition slice_last (n : nat) {A} (l : list A) : list A :=
  skipn (length l - n) l.

(** [safeConversation] followed by the new user turn. *)
Definition buildInput (message : string) (conversation : list ChatMessage)
    : list (string * string) :=
  map (fun m => (cm_role m, cm_content m))
      (filter (fun m => (truthy_str (cm_content m)
                         && (String.eqb (cm_role m) "user"
                             || String.eqb (cm_role m) "assistant"))%bool)
              (slice_last 20 conversation))
  ++ [("user", message)].

(** State threaded through the planner: how many tool invocations were
    issued and which requests were sent and responses received. *)
Record AgentSt := mkAgentSt
  { ntool : nat; requests : list Request; responses : list Response }.

(** A state and error monad: [inl] is a thrown [Error]'s message. *)
Definition M (A : Type) : Type := AgentSt -> string + (A * AgentSt).
Definition ret {A} (a : A) : M A := fun st => inr (a, st).
Definition bind {A B} (m : M A) (k : A -> M B) : M B :=
  fun st => match m st with inl e => inl e | inr (a, st') => k a st' end.
Local Notation "x <- m ;; k" := (bind m (fun x => k))
  (at level 61, m at next level, right associativity).

Section Planner.

(** The remote endpoint: the response to the [n]-th request, or the
    error thrown by [createOpenAIResponse] on a non-2xx status. *)
Variable endpoint : nat -> Request -> string + Response.
(** The relay, seen from the planner: the outcome of the [n]-th [runTool]
    call, [inl] carrying the rejection message. *)
Variable runToolOutcome : nat -> string -> JsonObject -> string + JVal.
(** [parseJsonSafe<JsonObject>(call.arguments, {})] *)
Variable parseArgs : string -> JsonObject.

(** [createOpenAIResponse(apiKey, body)] *)
Definition createOpenAIResponse (req : Request) : M Response :=
  fun st =>
    match endpoint (length (requests st)) req with
    | inl e => inl e
    | inr r => inr (r, mkAgentSt (ntool st) (requests st ++ [req]) (responses st ++ [r]))
    end.

(** [runTool(tool, params)], as a promise that resolves or rejects. *)
Definition runTool (tool : string) (params : JsonObject) : M (string + JVal) :=
  fun st => inr (runToolOutcome (ntool st) tool params,
                 mkAgentSt (S (ntool st)) (requests st) (responses st)).

(** The inner [for (const call of calls)] loop with its [try]/[catch]. *)
Fixpoint runCalls (calls : list FunctionCall) (toolCalls : list ExecutedToolCall)
    (outputs : list CallOutput) : M (list ExecutedToolCall * list CallOutput) :=
  match calls with
  | [] => ret (toolCalls, outputs)
  | call :: rest =>
      let args := parseArgs (fc_arguments call) in
      r <- runTool (fc_name call) args ;;
      match r with
      | inr result =>
          runCalls rest (toolCalls ++ [mkExec (fc_name call) args (Some result) None])
            (outputs ++ [mkOutput (fc_call_id call)
                           (JObj [("ok", JBool true); ("result", result)])])
      | inl messageText =>
          runCalls rest (toolCalls ++ [mkExec (fc_name call) args None (Some messageText)])
            (outputs ++ [mkOutput (fc_call_id call)
                           (JObj [("ok", JBool false); ("error", JStr messageText)])])
      end
  end.

(** [while (guard < 8) { guard += 1; ... }]. [fuel] only makes the
    recursion structural; [runOpenAIAgent] starts it at 8 with
    [guard = 0], so the [guard < 8] test is what stops the loop. *)
Fixpoint agentLoop (model : string) (fuel guard : nat) (response : Response)
    (toolCalls : list ExecutedToolCall) : M (Response * list ExecutedToolCall) :=
  match fuel with
  | O => ret (response, toolCalls)
  | S fuel' =>
      if Nat.ltb guard 8 then
        let guard := S guard in
        let calls := extractOpenAIFunctionCalls response in
        match calls with
        | [] => ret (response, toolCalls)
        | _ :: _ =>
            p <- runCalls calls toolCalls [] ;;
            let '(toolCalls', outputs) := p in
            response' <- createOpenAIResponse (ReqFollowUp model (resp_id response) outputs) ;;
            agentLoop model fuel' guard response' toolCalls'
        end
      else ret (response, toolCalls)
  end.

(** [extractOpenAIText(response) || "Done."] *)
Definition finalText (response : Response) : string :=
  let t := extractOpenAIText response in if truthy_str t then t else "Done.".

(** [runOpenAIAgent(message, conversation, model, apiKey, researchContext, designProfile)] *)
Definition runOpenAIAgent (message : string) (conversation : list ChatMessage)
    (model apiKey researchContext designProfile : string)
    : M (string * list ExecutedToolCall) :=
  response <- createOpenAIResponse
                (ReqInitial model designProfile researchContext
                   (buildInput message conversation)) ;;
  p <- agentLoop model 8 0 response [] ;;
  let '(response', toolCalls) := p in
  ret (finalText response', toolCalls).

End Planner.

End OpenAI.

(* ------------------------------------------------------------------ *)
(** ** The local planner ([runLocalAgent]) *)

Module LocalAgent.

(** [extractNodeId(result)]: the [id] field of an object result when it
    is a string. *)
Definition extractNodeId (result : JVal) : option string :=
  match result with
  | JObj fields =>
      match find (fun kv => String.eqb (fst kv) "id") fields with
      | Some (_, JStr s) => Some s
      | _ => None
      end
  | _ => None
  end.

(** [extractNodeId(x) ?? fallback] *)
Definition nodeOr (x : JVal) (fallback : string) : string :=
  match extractNodeId x with Some s => s | None => fallback end.

(** Call parameters. Only the fields that link nodes and name them are
    kept ([parentId], [name] or [text]); the layout and colour literals
    (many of them fractional numbers) are constants of the recipe and play
    no part in which calls are made. *)
Definition frameP (parentId name : string) : JsonObject :=
  [("parentId", JStr parentId); ("name", JStr name)].
Definition textP (parentId text : string) : JsonObject :=
  [("parentId", JStr parentId); ("text", JStr text)].

(** Decimal rendering of a count inside a template literal. *)
Fixpoint digits (fuel n : nat) (acc : string) : string :=
  match fuel with
  | O => acc
  | S f =>
      let acc' := String (ascii_of_nat (48 + n mod 10)) acc in
      if Nat.ltb n 10 then acc' else digits f (n / 10) acc'
  end.
Definition nat_to_string (n : nat) : string := digits (S n) n "".

(** [toolCalls.filter((c) => c.error == null).length] *)
Definition successCount (toolCalls : list ExecutedToolCall) : nat :=
  length (filter (fun c => match tc_error c with None => true | Some _ => false end) toolCalls).

(** The closing summary of [runLocalAgent]. *)
Definition summary (toolCalls : list ExecutedToolCall) : string :=
  let ok := successCount toolCalls in
  let failCount := length toolCalls - ok in
  if Nat.eqb failCount 0 then
    ("Local agent generated a structured layout with " ++ nat_to_string ok
     ++ " Figma actions. Review and iterate from this frame-first starting point.")%string
  else
    ("Local agent executed " ++ nat_to_string ok ++ " action(s) with "
     ++ nat_to_string failCount ++ " error(s).")%string.

Definition rootFailMessage : string :=
  "Local agent could not initialize a root frame in Figma.".

(** State of one [runLocalAgent] call: the number of relayed invocations
    issued so far and the [toolCalls] audit array. *)
Record LSt := mkLSt { lcount : nat; toolCalls : list ExecutedToolCall }.

Definition LM (A : Type) : Type := LSt -> A * LSt.
Definition lret {A} (a : A) : LM A := fun st => (a, st).
Definition lbind {A B} (m : LM A) (k : A -> LM B) : LM B :=
  fun st => let (a, st') := m st in k a st'.
Local Notation "x <- m ;; k" := (lbind m (fun x => k))
  (at level 61, m at next level, right associativity).
Local Notation "m ;;; k" := (lbind m (fun _ => k))
  (at level 61, right associativity).

Fixpoint forEach {A} (xs : list A) (body : A -> LM unit) : LM unit :=
  match xs with
  | [] => lret tt
  | x :: rest => body x ;;; forEach rest body
  end.

Section Recipe.

(** The relay, seen from the planner: the outcome of the [n]-th
    [runTool] call ([inl] carries the rejection message). *)
Variable exec : nat -> string -> JsonObject -> string + JVal.

(** The [run] closure: await [runTool], push the outcome to [toolCalls],
    return the result or [null]. *)
Definition run (tool : string) (params : JsonObject) : LM JVal :=
  fun st =>
    let o := exec (lcount st) tool params in
    (match o with inr r => r | inl _ => JNull end,
     mkLSt (S (lcount st))
       (toolCalls st ++ [match o with
                         | inr r => mkExec tool params (Some r) None
                         | inl m => mkExec tool params None (Some m)
                         end])).

Definition run_ (tool : string) (params : JsonObject) : LM unit :=
  _r <- run tool params ;; lret tt.

Definition buttonRecipe (rootId : string) : LM unit :=
  section <- run "create_frame" (frameP rootId "Button Showcase") ;;
  let sectionId := nodeOr section rootId in
  run_ "create_text" (textP sectionId "Button Variants") ;;;
  row <- run "create_frame" (frameP sectionId "Button Row") ;;
  let rowId := nodeOr row sectionId in
  primary <- run "create_component" (frameP rowId "Button / Primary") ;;
  let primaryId := nodeOr primary rowId in
  run_ "create_text" (textP primaryId "Primary Action") ;;;
  secondary <- run "create_component" (frameP rowId "Button / Secondary") ;;
  let secondaryId := nodeOr secondary rowId in
  run_ "create_text" (textP secondaryId "Secondary Action").

Definition metricValue (metric : string) : string :=
  if String.eqb metric "Active boards" then "42"
  else if String.eqb metric "Design tokens" then "128" else "9".

Definition dashboardRecipe (rootId : string) : LM unit :=
  shell <- run "create_frame" (frameP rootId "Dashboard Shell") ;;
  let shellId := nodeOr shell rootId in
  sidebar <- run "create_frame" (frameP shellId "Sidebar") ;;
  let sidebarId := nodeOr sidebar shellId in
  forEach ["Workspace"; "Overview"; "Projects"; "Library"; "Settings"]
    (fun label => run_ "create_text" (textP sidebarId label)) ;;;
  content <- run "create_frame" (frameP shellId "Content") ;;
  let contentId := nodeOr content shellId in
  run_ "create_text" (textP contentId "Dashboard Overview") ;;;
  run_ "create_text" (textP contentId
    "Clear hierarchy with production-ready spacing and card primitives.") ;;;
  stats <- run "create_frame" (frameP contentId "Stats") ;;
  let statsId := nodeOr stats contentId in
  forEach ["Active boards"; "Design tokens"; "Open reviews"]
    (fun metric =>
       card <- run "create_component" (frameP statsId ("Metric / " ++ metric)%string) ;;
       let cardId := nodeOr card statsId in
       run_ "create_text" (textP cardId metric) ;;;
       run_ "create_text" (textP cardId (metricValue metric))) ;;;
  run_ "create_rectangle" (frameP contentId "Chart Placeholder").

Definition featureItems : list (string * string) :=
  [("Auto Layout First", "Generated comps stay editable and structured.");
   ("Token Driven", "Neutral base + semantic accent keeps themes stable.");
   ("Handoff Ready", "Production-friendly hierarchy and spacing rhythm.")].

Definition landingRecipe (message rootId : string) : LM unit :=
  nav <- run "create_frame" (frameP rootId "Navbar") ;;
  let navId := nodeOr nav rootId in
  run_ "create_text" (textP navId "CursorCanvas") ;;;
  run_ "create_text" (textP navId "Docs   Pricing   Login") ;;;
  hero <- run "create_frame" (frameP rootId "Hero") ;;
  let heroId := nodeOr hero rootId in
  run_ "create_text" (textP heroId "Design polished interfaces in one pass") ;;;
  run_ "create_text" (textP heroId
    "Frame-first structure, clean spacing rhythm, and reusable components ready for handoff.") ;;;
  ctaRow <- run "create_frame" (frameP heroId "CTA") ;;
  let ctaRowId := nodeOr ctaRow heroId in
  primary <- run "create_component" (frameP ctaRowId "Button / Primary") ;;
  let primaryId := nodeOr primary ctaRowId in
  run_ "create_text" (textP primaryId "Start Designing") ;;;
  secondary <- run "create_component" (frameP ctaRowId "Button / Secondary") ;;
  let secondaryId := nodeOr secondary ctaRowId in
  run_ "create_text" (textP secondaryId "View Components") ;;;
  featureRow <- run "create_frame" (frameP rootId "Feature Cards") ;;
  let featureRowId := nodeOr featureRow rootId in
  forEach featureItems
    (fun item =>
       card <- run "create_component" (frameP featureRowId ("Feature / " ++ fst item)%string) ;;
       let cardId := nodeOr card featureRowId in
       run_ "create_text" (textP cardId (fst item)) ;;;
       run_ "create_text" (textP cardId (snd item))) ;;;
  run_ "create_text" (textP rootId ("Prompt: " ++ substring 0 140 message)%string).

(** [blended] *)
Definition blended (message researchContext designProfile : string) : string :=
  to_lower (message ++ String "010" EmptyString ++ researchContext
            ++ String "010" EmptyString ++ designProfile)%string.

Definition isDashboard (b : string) : bool :=
  (includes b "dashboard" || includes b "admin" || includes b "app")%bool.

Definition isButton (b : string) : bool :=
  (includes b "button" && negb (isDashboard b) && negb (includes b "page"))%bool.

(** [runLocalAgent(message, researchContext, designProfile)] from the
    point where [toolCalls] has been created. *)
Definition localAgent (message researchContext designProfile : string) : LM string :=
  let b := blended message researchContext designProfile in
  rootResult <- run "create_frame"
    [("name", JStr (if isDashboard b then "App Shell Canvas" else "Landing Canvas"))] ;;
  match extractNodeId rootResult with
  | Some rootId =>
      if truthy_str rootId then
        (if isButton b then buttonRecipe rootId
         else if isDashboard b then dashboardRecipe rootId
         else landingRecipe message rootId) ;;;
        (fun st => (summary (toolCalls st), st))
      else lret rootFailMessage
  | None => lret rootFailMessage
  end.

(** [runLocalAgent]: [{ assistant, toolCalls }] and the number of
    relayed invocations issued, starting with an empty [toolCalls]. *)
Definition runLocalAgent (firstCall : nat) (message researchContext designProfile : string)
    : string * list ExecutedToolCall * nat :=
  let (assistant, st) := localAgent message researchContext designProfile (mkLSt firstCall []) in
  (assistant, toolCalls st, lcount st - firstCall).

End Recipe.

(** Number of calls each recipe issues after the root frame. *)
Definition recipeLength (b : string) : nat :=
  if isButton b then 7 else if isDashboard b then 21 else 22.

(** Whether the root [create_frame] yields a usable [rootId]
    ([if (!rootId) return ...] is skipped). *)
Definition rootReady (exec : nat -> string -> JsonObject -> string + JVal)
    (firstCall : nat) (b : string) : bool :=
  match extractNodeId
          (match exec firstCall "create_frame"
                   [("name", JStr (if isDashboard b then "App Shell Canvas" else "Landing Canvas"))]
           with inr r => r | inl _ => JNull end) with
  | Some rootId => truthy_str rootId
  | None => false
  end.

(** A relay on which every invocation times out. *)
Definition allFail (n : nat) (tool : string) (params : JsonObject) : string + JVal :=
  inl "Plugin timeout".

(** The resilience property: whatever the relay answers, the whole recipe
    selected by the message is issued (root frame included). *)
Definition failures_do_not_abort (message researchContext designProfile : string) : Prop :=
  forall exec : nat -> string -> JsonObject -> string + JVal,
    length (snd (fst (runLocalAgent exec 0 message researchContext designProfile)))
      = 1 + recipeLength (blended message researchContext designProfile).

End LocalAgent.

(* ------------------------------------------------------------------ *)
(** ** The chat gate ([handleChatRequest] and the [POST /chat] route) *)

Module Chat.
Import Relay.

(** [interface ChatRequest]; every field is optional. [conversation] is
    kept as [None] when [Array.isArray] fails on it. *)
Record ChatRequest := mkChatRequest
  { provider : option string; model : option string; apiKey : option string;
    message : option string; conversation : option (list ChatMessage);
    researchContext : option string; designProfile : option string }.

(** The success value [{ assistant, provider, model?, toolCalls }]. *)
Record ChatResult := mkChatResult
  { cr_assistant : string; cr_provider : string; cr_model : option string;
    cr_toolCalls : list ExecutedToolCall }.

(** Body written by the [/chat] route. *)
Inductive ChatReply :=
| ChatOk (r : ChatResult)
| ChatError (msg : string).

(** [x ?? d] on an optional string. *)
Definition coalesce (o : option string) (d : string) : string :=
  match o with Some s => s | None => d end.

(** [pluginBridgeReady()]:
    [(pluginSocket != null && pluginSocket.readyState === 1) || waitingGetRes != null] *)
Definition pluginBridgeReady (st : St) : bool :=
  socket_open st || match waitingGetRes st with Some _ => true | None => false end.

(** [payload.apiKey?.trim() || process.env.OPENAI_API_KEY] *)
Definition resolveApiKey (k : option string) (envKey : option string) : option string :=
  match k with
  | Some s => if truthy_str (trim s) then Some (trim s) else envKey
  | None => envKey
  end.

(** [payload.model?.trim() || "gpt-5-mini"] *)
Definition resolveModel (m : option string) : string :=
  match m with
  | Some s => if truthy_str (trim s) then trim s else "gpt-5-mini"
  | None => "gpt-5-mini"
  end.

(** Truthiness of an optional string ([undefined] is falsy). *)
Definition truthy_opt (o : option string) : bool :=
  match o with Some s => truthy_str s | None => false end.

Section Handler.
(** [process.env.OPENAI_API_KEY] *)
Variable envKey : option string.
(** The two planners act on the relay state (they dispatch through
    [sendToPlugin]) and may throw. *)
Variable runLocalAgent : string -> string -> string -> St ->
  (string + (string * list ExecutedToolCall)) * St.
Variable runOpenAIAgent : string -> list ChatMessage -> string -> string -> string -> string -> St ->
  (string + (string * list ExecutedToolCall)) * St.

Definition handleChatRequest (payload : ChatRequest) (st : St) : (string + ChatResult) * St :=
  let provider := to_lower (coalesce (provider payload) "local") in
  let message := trim (coalesce (message payload) "") in
  let researchContext := trim (coalesce (researchContext payload) "") in
  let designProfile := trim (coalesce (designProfile payload) "") in
  if negb (truthy_str message) then (inl "message is required", st)
  else if negb (pluginBridgeReady st) then
    (inl "Figma plugin is not connected. Click Connect in CursorCanvas first.", st)
  else if String.eqb provider "local" then
    let '(r, st') := runLocalAgent message researchContext designProfile st in
    match r with
    | inl e => (inl e, st')
    | inr (assistant, toolCalls) => (inr (mkChatResult assistant provider None toolCalls), st')
    end
  else if String.eqb provider "openai" then
    let apiKey := resolveApiKey (apiKey payload) envKey in
    if negb (truthy_opt apiKey) then
      (inl "OpenAI API key missing. Add it in plugin UI or OPENAI_API_KEY env.", st)
    else
      let model := resolveModel (model payload) in
      let conversation := match conversation payload with Some c => c | None => [] end in
      let '(r, st') := runOpenAIAgent message conversation model (coalesce apiKey "")
                         researchContext designProfile st in
      match r with
      | inl e => (inl e, st')
      | inr (assistant, toolCalls) =>
          (inr (mkChatResult assistant provider (Some model) toolCalls), st')
      end
  else if (String.eqb provider "cursor" || String.eqb provider "lovable")%bool then
    (inl (provider ++ " provider is not available yet in CursorCanvas plugin chat.")%string, st)
  else (inl ("Unknown provider: " ++ provider)%string, st).

(** [POST /chat]: 200 with the result, 400 with [{ error }] on any throw. *)
Definition chatRoute (payload : ChatRequest) (st : St) : (nat * ChatReply) * St :=
  let '(r, st') := handleChatRequest payload st in
  match r with
  | inl e => ((400, ChatError e), st')
  | inr ok => ((200, ChatOk ok), st')
  end.

End Handler.

End Chat.

(* ------------------------------------------------------------------ *)
(** ** The port negotiator ([tryPortPair], [schedulePortRetry], [/health]) *)

Module Ports.

(** [FIGSOR_PORT_INIT] with [FIGSOR_PORT] unset, and [FIGSOR_PORT_MAX]. *)
Definition FIGSOR_PORT_INIT : nat := 3055.
Definition FIGSOR_PORT_MAX : nat := 3080.

(** The negotiator's module-level variables, together with what the
    [httpServer] and the current [wss] hold at the OS level. *)
Record NSt := mkNSt
  { portBindAttemptCounter : nat;
    portRetryPending : bool;
    activeWsPort : nat;
    activeHttpPort : nat;
    attemptPorts : nat * nat;          (* ports of the attempt whose error listener is installed *)
    httpListeningOn : option nat;      (* [httpServer.listening], with its port *)
    wss : option nat;                  (* the current [WebSocketServer], by port *)
    wssBound : bool;                   (* that server has bound its port *)
    retryAt : option (nat * nat);      (* [runRetry] scheduled with these ports *)
    listeningLog : list (nat * nat);   (* the "WebSocket port ..., HTTP port ..." lines *)
    exited : bool }.                   (* [process.exit] or an uncaught [throw] *)

Definition init : NSt :=
  mkNSt 0 false FIGSOR_PORT_INIT (FIGSOR_PORT_INIT + 1) (FIGSOR_PORT_INIT, FIGSOR_PORT_INIT + 1)
        None None false None [] false.

Definition set_counter (n : nat) (s : NSt) : NSt :=
  mkNSt n (portRetryPending s) (activeWsPort s) (activeHttpPort s) (attemptPorts s)
        (httpListeningOn s) (wss s) (wssBound s) (retryAt s) (listeningLog s) (exited s).
Definition set_retry (b : bool) (r : option (nat * nat)) (s : NSt) : NSt :=
  mkNSt (portBindAttemptCounter s) b (activeWsPort s) (activeHttpPort s) (attemptPorts s)
        (httpListeningOn s) (wss s) (wssBound s) r (listeningLog s) (exited s).
Definition set_active (w h : nat) (s : NSt) : NSt :=
  mkNSt (portBindAttemptCounter s) (portRetryPending s) w h (attemptPorts s)
        (httpListeningOn s) (wss s) (wssBound s) (retryAt s) (listeningLog s) (exited s).
Definition set_attempt (p : nat * nat) (s : NSt) : NSt :=
  mkNSt (portBindAttemptCounter s) (portRetryPending s) (activeWsPort s) (activeHttpPort s) p
        (httpListeningOn s) (wss s) (wssBound s) (retryAt s) (listeningLog s) (exited s).
Definition set_http (o : option nat) (s : NSt) : NSt :=
  mkNSt (portBindAttemptCounter s) (portRetryPending s) (activeWsPort s) (activeHttpPort s)
        (attemptPorts s) o (wss s) (wssBound s) (retryAt s) (listeningLog s) (exited s).
Definition set_wss (o : option nat) (b : bool) (s : NSt) : NSt :=
  mkNSt (portBindAttemptCounter s) (portRetryPending s) (activeWsPort s) (activeHttpPort s)
        (attemptPorts s) (httpListeningOn s) o b (retryAt s) (listeningLog s) (exited s).
Definition log_listening (p : nat * nat) (s : NSt) : NSt :=
  mkNSt (portBindAttemptCounter s) (portRetryPending s) (activeWsPort s) (activeHttpPort s)
        (attemptPorts s) (httpListeningOn s) (wss s) (wssBound s) (retryAt s)
        (listeningLog s ++ [p]) (exited s).
Definition exit (s : NSt) : NSt :=
  mkNSt (portBindAttemptCounter s) (portRetryPending s) (activeWsPort s) (activeHttpPort s)
        (attemptPorts s) (httpListeningOn s) (wss s) (wssBound s) (retryAt s) (listeningLog s) true.

(** [===] on an optional port ([null] never equals a port). *)
Definition opt_eqb (o : option nat) (p : option nat) : bool :=
  match o, p with
  | Some a, Some b => Nat.eqb a b
  | None, None => true
  | _, _ => false
  end.

(** [schedulePortRetry(wsPort, httpPort)]: at most one retry in flight;
    a listening [httpServer] is closed first (it stops listening at once,
    [runRetry] runs from the close callback), otherwise [setImmediate]. *)
Definition schedulePortRetry (wsPort httpPort : nat) (s : NSt) : NSt :=
  if portRetryPending s then s
  else set_http None (set_retry true (Some (wsPort, httpPort)) s).

(** [tryPortPair(wsPort, httpPort)] up to the asynchronous [listen]: the new
    attempt id, the port-range check, the fresh [error] listener, and
    [ERR_SERVER_ALREADY_LISTEN] when the server is still bound. *)
Definition tryPortPair (wsPort httpPort : nat) (s : NSt) : NSt :=
  let s := set_counter (S (portBindAttemptCounter s)) s in
  if Nat.ltb FIGSOR_PORT_MAX httpPort then exit s
  else
    let s := set_attempt (wsPort, httpPort) s in
    match httpListeningOn s with
    | Some _ => schedulePortRetry wsPort httpPort s
    | None => s
    end.

(** Callbacks, each carrying what its closure captured:
    [bindAttemptId], [wsPort], [httpPort]. *)
Inductive NEv :=
| NTry (wsPort httpPort : nat)                   (* a direct call of [tryPortPair] *)
| NHttpListen (id wsPort httpPort : nat)         (* the OS bound [httpPort]; [listen] callback *)
| NHttpError (inUse : bool)                      (* [httpServer] [error] event *)
| NProbe (id wsPort httpPort : nat) (available : bool)  (* [probePort(wsPort)] resolved *)
| NWssError (id wsPort httpPort : nat) (inUse : bool)   (* [wss] [error] event *)
| NWssListening (id wsPort httpPort : nat)       (* the OS bound [wsPort] for [wss] *)
| NRetry.                                        (* [runRetry] *)

Definition nstep (e : NEv) (s : NSt) : NSt :=
  match e with
  | NTry w h => tryPortPair w h s
  | NHttpListen id w h =>
      let s := set_http (Some h) s in
      if negb (Nat.eqb id (portBindAttemptCounter s)) then s
      else
        (* activeWsPort = wsPort; activeHttpPort = httpPort; wss?.close(); wss = null *)
        set_wss None false (set_active w h s)
  | NHttpError inUse =>
      (* only the latest attempt's listener is installed *)
      let '(w, h) := attemptPorts s in
      if inUse then schedulePortRetry (w + 2) (h + 2) s else exit s
  | NProbe id w h available =>
      if negb (Nat.eqb id (portBindAttemptCounter s)) then s
      else if negb available then schedulePortRetry (w + 2) (h + 2) s
      else set_wss (Some w) false s
  | NWssError id w h inUse =>
      if negb (Nat.eqb id (portBindAttemptCounter s)) then s
      else if inUse then schedulePortRetry (w + 2) (h + 2) s else exit s
  | NWssListening id w h =>
      let s := if opt_eqb (wss s) (Some w) then set_wss (Some w) true s else s in
      if negb (Nat.eqb id (portBindAttemptCounter s)) then s
      else log_listening (w, h) s
  | NRetry =>
      match retryAt s with
      | Some (w, h) => tryPortPair w h (set_retry false None s)
      | None => s
      end
  end.

Fixpoint nrun (es : list NEv) (s : NSt) : NSt :=
  match es with
  | [] => s
  | e :: es' => nrun es' (nstep e s)
  end.

(** [GET /health], answered on whatever port [httpServer] listens on:
    [{ ok, wsPort: activeWsPort, httpPort: activeHttpPort, ... }]. *)
Definition health (s : NSt) : option (nat * nat) :=
  match httpListeningOn s with
  | Some _ => Some (activeWsPort s, activeHttpPort s)
  | None => None
  end.

(** The process holds the pair: [httpServer] is bound to the HTTP port and
    the current [wss] is bound to the WebSocket port. *)
Definition holds (s : NSt) (p : nat * nat) : bool :=
  let '(w, h) := p in
  (opt_eqb (httpListeningOn s) (Some h)
   && opt_eqb (wss s) (Some w) && wssBound s)%bool.

End Ports.

(* ------------------------------------------------------------------ *)
(** ** Startup of the port negotiator under Node's scheduling

    [nstep] lets callbacks arrive in any order.  At startup Node delivers
    them in a fixed order, and none of them waits for the event loop to
    poll for I/O:
    - [httpServer.listen(httpPort, cb)] with no host binds synchronously;
      the [listening] callback, or the bind error, is emitted with
      [process.nextTick];
    - [probePort(wsPort)] listens on the IP literal ["127.0.0.1"], whose
      lookup completes with [process.nextTick]; the bind is synchronous,
      its error and its [listening] callback are emitted with
      [process.nextTick], and [tester.close(cb)] on a server without
      connections calls back with [process.nextTick]; the [.then]
      continuation is a microtask;
    - [new WebSocketServer({ port })] binds its own server synchronously;
      its [error] or [listening] event follows with [process.nextTick];
    - [schedulePortRetry] on a listening [httpServer] closes its handle at
      once, and [runRetry] runs from the close callback
      ([process.nextTick], no connection is open yet); only when
      [httpServer] is not listening does it wait for [setImmediate].
    So one attempt runs to its end (bound, retry scheduled, or exit)
    before Node can accept a connection, and [GET /health] can only be
    answered in a state reached at the end of an attempt.  [attempts]
    records every such state (a superset of the states in which the
    event loop polls: after a retry scheduled through [close] it does
    not poll at all). *)

Module PortsNode.
Import Ports.

(** What the OS answers to a bind of a port. *)
Inductive BindOutcome := BindOk | BindInUse | BindFail.

Section Startup.
(** [httpServer.listen(port)]: a bind on all interfaces. *)
Variable httpBind : nat -> BindOutcome.
(** [probePort(port)] resolves [true]: the test bind on 127.0.0.1 worked. *)
Variable probeFree : nat -> bool.
(** [new WebSocketServer({ port })]: a bind on all interfaces. *)
Variable wsBind : nat -> BindOutcome.

(** The callbacks Node delivers, in order, for the attempt that
    [tryPortPair] has just started in [s]. *)
Definition attemptEvents (s : NSt) : list NEv :=
  let id := portBindAttemptCounter s in
  let '(w, h) := attemptPorts s in
  match httpBind h with
  | BindFail => [NHttpError false]
  | BindInUse => [NHttpError true]
  | BindOk =>
      NHttpListen id w h :: NProbe id w h (probeFree w) ::
      (if probeFree w then
         match wsBind w with
         | BindOk => [NWssListening id w h]
         | BindInUse => [NWssError id w h true]
         | BindFail => [NWssError id w h false]
         end
       else [])
  end.

(** The states at the end of each attempt, starting from the state [s]
    that a call of [tryPortPair] has just produced; a scheduled retry
    runs [runRetry] and the next attempt. *)
Fixpoint attempts (fuel : nat) (s : NSt) : list NSt :=
  match fuel with
  | 0 => []
  | S f =>
      if exited s then [s]
      else
        let s' := nrun (attemptEvents s) s in
        s' :: (if exited s' then []
               else match retryAt s' with
                    | Some _ => attempts f (nstep NRetry s')
                    | None => []
                    end)
  end.

(** The module-level variables before [tryPortPair(FIGSOR_PORT_INIT,
    FIGSOR_PORT_INIT + 1)], for a numeric [FIGSOR_PORT] [P]. *)
Definition initAt (P : nat) : NSt :=
  mkNSt 0 false P (P + 1) (P, P + 1) None None false None [] false.

(** More attempts than the port range has pairs. *)
Definition startupFuel : nat := FIGSOR_PORT_MAX + 3.

(** The states at the ends of the startup attempts. *)
Definition startupStates (P : nat) : list NSt :=
  attempts startupFuel (nstep (NTry P (P + 1)) (initAt P)).

(** The pair ([wsPort], [httpPort]) can be taken: [httpServer] binds the
    HTTP port, the probe finds the WebSocket port free and [wss] binds it. *)
Definition pairOk (w h : nat) : bool :=
  match httpBind h, wsBind w with
  | BindOk, BindOk => probeFree w
  | _, _ => false
  end.

End Startup.
End PortsNode.

(* ------------------------------------------------------------------ *)
(** ** Views of the relay log, and the MCP tool handler *)

Module RelayViews.
Import Relay.

(** The commands written to poll responses, in the order written. *)
Definition cmds_of (w : list (nat * Z * Payload)) : list Cmd :=
  flat_map (fun x => match x with (_, _, PCmd c) => [c] | (_, _, PEmpty) => [] end) w.

(** The command an event pushes onto [httpCommandQueue]: a dispatch made
    while no socket is open. *)
Definition pushed (e : Event) (st : St) : list Cmd :=
  match e with
  | EvDispatch i t p => if socket_open st then [] else [mkCmd i t p]
  | _ => []
  end.

(** The commands pushed by a sequence of events run from [st]. *)
Fixpoint fallbackLog (evs : list Event) (st : St) : list Cmd :=
  match evs with
  | [] => []
  | e :: rest => pushed e st ++ fallbackLog rest (step e st)
  end.

End RelayViews.

Module Mcp.
Import Relay.

(** One element of the [content] array of a tool result. *)
Record ToolContent := mkToolContent { tc_text : string; tc_isError : bool }.

(** The [CallToolRequestSchema] handler either answers at once or awaits
    the relayed invocation [id]. *)
Inductive ToolCallStep :=
| ToolDone (c : ToolContent)
| ToolAwait (id : string).

Section Handler.
(** [JSON.stringify(v)] and [JSON.stringify(v, null, 2)]. *)
Variable stringify : JVal -> string.
Variable stringifyPretty : JVal -> string.

(** The synchronous part of the handler; [id] is the fresh
    [makeRequestId("chat-tool")] that [runTool] passes to [sendToPlugin]. *)
Definition mcpCallTool (name : string) (args : option JsonObject) (id : string) (st : St)
    : ToolCallStep * St :=
  let params := match args with Some a => a | None => [] end in
  if String.eqb name "get_figma_prompt" then
    let '(r, st') := getFigmaPrompt st in
    (ToolDone (mkToolContent
       (match r with
        | PromptText t => stringify (JObj [("prompt", JStr t)])
        | NoPrompt => stringify (JObj [("prompt", JNull); ("message", JStr "No prompt from Figma.")])
        end) false), st')
  else (ToolAwait id, sendToPlugin id name params st).

(** The [try]/[catch] around [await runTool(name, params)]. *)
Definition mcpToolReply (o : Outcome) : ToolContent :=
  match o with
  | Resolved v => mkToolContent (stringifyPretty v) false
  | Rejected m => mkToolContent ("Error: " ++ m) true
  end.

End Handler.
End Mcp.

(* ================================================================== *)
(** * Proofs *)

Module RelayProofs.
Import Relay RelayScenarios.

Lemma has_app (i : string) (p q : list string) :
  has i (p ++ q) = (has i p || has i q)%bool.
Proof. unfold has. apply existsb_app. Qed.

Lemma has_map_delete_self (i : string) (p : list string) :
  has i (map_delete i p) = false.
Proof.
  unfold has, map_delete. induction p as [|k p IH]; simpl; auto.
  destruct (String.eqb i k) eqn:E; simpl; auto.
  rewrite E. simpl. exact IH.
Qed.

Lemma has_map_delete_absent (i j : string) (p : list string) :
  has i p = false -> has i (map_delete j p) = false.
Proof.
  unfold has, map_delete. induction p as [|k p IH]; simpl; auto.
  intro H. apply orb_false_iff in H as [H1 H2].
  destruct (negb (String.eqb j k)); simpl; rewrite ?H1; simpl; auto.
Qed.

Lemma has_map_set_other (i j : string) (p : list string) :
  j <> i -> has i p = false -> has i (map_set j p) = false.
Proof.
  intros Hne H. unfold map_set. destruct (has j p); auto.
  rewrite has_app, H. simpl. destruct (String.eqb_spec i j); [congruence | reflexivity].
Qed.

Lemma has_true_neq (i j : string) (p : list string) :
  has i p = false -> has j p = true -> j <> i.
Proof. intros H1 H2 ->. congruence. Qed.

(** [deliverReply] either leaves the state alone or removes [i] and
    appends one settlement for it. *)
Lemma deliverReply_absent (i : string) (mid : option string) (v : JVal)
    (e : option string) (st : St) :
  has i (pending st) = false ->
  has i (pending (deliverReply mid v e st)) = false /\
  exists later, settled (deliverReply mid v e st) = settled st ++ later /\
                Forall (fun p => fst p <> i) later.
Proof.
  intros H. unfold deliverReply.
  destruct mid as [j|]; [|split; [exact H| exists []; rewrite app_nil_r; auto]].
  destruct (truthy_str j && has j (pending st))%bool eqn:E.
  - apply andb_true_iff in E as [_ E].
    pose proof (has_true_neq _ _ _ H E) as Hne.
    split.
    + destruct e as [e|]; [destruct (truthy_str e)|]; simpl;
        apply has_map_delete_absent; exact H.
    + destruct e as [e|]; [destruct (truthy_str e)|]; simpl;
        eexists; split; [reflexivity| | reflexivity| |reflexivity|];
        constructor; simpl; auto.
  - split; [exact H| exists []; rewrite app_nil_r; auto].
Qed.

Lemma step_absent_stays_unsettled (i : string) (e : Event) (st : St) :
  has i (pending st) = false ->
  match e with EvDispatch j _ _ => j <> i | _ => True end ->
  has i (pending (step e st)) = false /\
  exists later, settled (step e st) = settled st ++ later /\
                Forall (fun p => fst p <> i) later.
Proof.
  intros H He.
  assert (Hnil : settled st = settled st ++ [] /\ Forall (fun p : string * Outcome => fst p <> i) [])
    by (rewrite app_nil_r; auto).
  destruct e as [j t p|j|r m|m|s|n|r|r|r t|]; simpl.
  - (* dispatch *)
    unfold sendToPlugin, enqueueForPoll. simpl.
    assert (Hp : has i (map_set j (pending st)) = false)
      by (apply has_map_set_other; auto).
    destruct (pluginSocket st) as [s|]; [destruct (Nat.eqb (sock_ready s) 1)|];
      simpl; try (destruct (waitingGetRes st));
      try (destruct (httpCommandQueue st ++ [mkCmd j t p]));
      simpl; split; auto; exists []; rewrite app_nil_r; auto.
  - (* timeout *)
    unfold timeoutFire. destruct (has j (pending st)) eqn:E.
    + pose proof (has_true_neq _ _ _ H E). simpl. split.
      * apply has_map_delete_absent; exact H.
      * eexists; split; [reflexivity|]. constructor; simpl; auto.
    + split; [exact H| exists []; exact Hnil].
  - unfold handleResult. simpl.
    destruct (deliverReply_absent i (r_id m) (r_result m) (r_error m) st H)
      as [H1 [l [H2 H3]]].
    split; [exact H1| exists l; split; [exact H2| exact H3]].
  - unfold wsMessage.
    destruct (m_type m) as [ty|], (m_text m) as [tx|];
      try (destruct (String.eqb ty "figma_prompt"));
      try (apply deliverReply_absent; exact H);
      simpl; split; auto; exists []; exact Hnil.
  - split; [exact H| exists []; exact Hnil].
  - unfold wsClose. destruct (pluginSocket st) as [s|];
      [destruct (Nat.eqb (sock_name s) n)|]; simpl;
      split; auto; exists []; exact Hnil.
  - unfold handlePoll. destruct (httpCommandQueue st); simpl;
      split; auto; exists []; exact Hnil.
  - unfold pollClose. destruct (waitingGetRes st) as [w|];
      [destruct (Nat.eqb w r)|]; simpl; split; auto; exists []; exact Hnil.
  - split; [exact H| exists []; exact Hnil].
  - split; [exact H| exists []; exact Hnil].
Qed.

Lemma run_absent_stays_unsettled (i : string) (evs : list Event) (st : St) :
  has i (pending st) = false -> no_redispatch i evs ->
  exists later, settled (run evs st) = settled st ++ later /\
                Forall (fun p => fst p <> i) later.
Proof.
  revert st. induction evs as [|e evs IH]; intros st H Hr; simpl.
  - exists []. rewrite app_nil_r. auto.
  - inversion Hr as [|? ? He Hrest]; subst.
    destruct (step_absent_stays_unsettled i e st H He) as [H1 [l1 [E1 F1]]].
    destruct (IH (step e st) H1 Hrest) as [l2 [E2 F2]].
    exists (l1 ++ l2). rewrite E2, E1, app_assoc. split; auto.
    apply Forall_app; auto.
Qed.

End RelayProofs.

Module RelayClaims.
Import Relay RelayScenarios RelayProofs.

(** What the fallback (no open socket) branch of [sendToPlugin] does to
    the queue, the parked poll and the HTTP output. *)
Definition fallback_delivery (st : St) (c : Cmd) (st' : St) : Prop :=
  wsSent st' = wsSent st /\
  match waitingGetRes st with
  | None =>
      httpCommandQueue st' = httpCommandQueue st ++ [c] /\
      waitingGetRes st' = None /\ httpWritten st' = httpWritten st
  | Some r =>
      exists c0 rest,
        httpCommandQueue st ++ [c] = c0 :: rest /\
        httpCommandQueue st' = rest /\
        httpWritten st' = httpWritten st ++ [(r, 200%Z, PCmd c0)] /\
        waitingGetRes st' = None
  end.

(** C1: [sendToPlugin] registers the id as pending; with an open socket it
    sends exactly one message and leaves the queue, the parked poll and
    the HTTP output untouched; otherwise it appends to the FIFO and, when
    a poll is parked, pops the oldest entry (the new one if the queue was
    empty) into that poll response and clears the slot. *)
Theorem sendToPlugin_delivery (st : St) (id tool : string) (params : JsonObject) :
  let c := mkCmd id tool params in
  let st' := sendToPlugin id tool params st in
  pending st' = map_set id (pending st) /\
  match pluginSocket st with
  | Some s =>
      if Nat.eqb (sock_ready s) 1 then
        wsSent st' = wsSent st ++ [(sock_name s, c)] /\
        httpCommandQueue st' = httpCommandQueue st /\
        waitingGetRes st' = waitingGetRes st /\
        httpWritten st' = httpWritten st
      else fallback_delivery st c st'
  | None => fallback_delivery st c st'
  end.
Proof.
  intros c st'. subst st' c.
  unfold sendToPlugin.
  assert (Hfb : fallback_delivery st (mkCmd id tool params)
              (enqueueForPoll (mkCmd id tool params)
                 (set_pending (map_set id (pending st)) st))).
  { unfold enqueueForPoll, fallback_delivery.
    unfold set_queue, set_pending, set_waiting, writeJson. simpl.
    destruct (waitingGetRes st) as [r|].
    - destruct (httpCommandQueue st ++ [mkCmd id tool params]) as [|c0 rest] eqn:Hq.
      + destruct (httpCommandQueue st); discriminate.
      + simpl. split; [reflexivity|]. exists c0, rest. repeat split; reflexivity.
    - simpl. repeat split; reflexivity. }
  assert (Hp : forall c st0, pending (enqueueForPoll c st0) = pending st0).
  { intros c0 st0. unfold enqueueForPoll. simpl.
    destruct (waitingGetRes st0); [destruct (httpCommandQueue st0 ++ [c0])|]; reflexivity. }
  simpl. destruct (pluginSocket st) as [s|] eqn:Hs.
  - destruct (Nat.eqb (sock_ready s) 1).
    + simpl. repeat split; reflexivity.
    + split; [rewrite Hp; reflexivity|]. exact Hfb.
  - split; [rewrite Hp; reflexivity|]. exact Hfb.
Qed.

(** C2: a reply for an id that is not pending (unknown or timed out) is a
    silent no-op on both ingress paths (the [/result] handler only answers
    200 [{}]); a timeout on a pending id removes it and rejects it exactly
    once, and no later event other than a re-dispatch of the same id ever
    settles that id again. *)
Theorem late_reply_ignored_timeout_once :
  (forall (st : St) (res : nat) (m : ResultMsg) (i : string),
      r_id m = Some i -> has i (pending st) = false ->
      handleResult res m st = writeJson res 200 PEmpty st) /\
  (forall (st : St) (m : WsMsg) (i : string),
      is_prompt_msg m = false -> m_id m = Some i -> has i (pending st) = false ->
      wsMessage m st = st) /\
  (forall (st : St) (i : string) (evs : list Event),
      has i (pending st) = true -> no_redispatch i evs ->
      let st1 := timeoutFire i st in
      has i (pending st1) = false /\
      settled st1 = settled st ++ [(i, Rejected "Plugin timeout")] /\
      exists later, settled (run evs st1) = settled st1 ++ later /\
                    Forall (fun p => fst p <> i) later).
Proof.
  split; [|split].
  - intros st res m i Hid Hp. unfold handleResult, deliverReply.
    rewrite Hid, Hp, andb_false_r. reflexivity.
  - intros st m i Hnp Hid Hp. unfold is_prompt_msg in Hnp. unfold wsMessage.
    assert (Hd : deliverReply (m_id m) (m_result m) (m_error m) st = st)
      by (unfold deliverReply; rewrite Hid, Hp, andb_false_r; reflexivity).
    destruct (m_type m) as [ty|], (m_text m) as [tx|]; auto.
    rewrite Hnp. exact Hd.
  - intros st i evs Hp Hr st1. subst st1.
    assert (Hs : has i (pending (timeoutFire i st)) = false)
      by (unfold timeoutFire; rewrite Hp; simpl; apply has_map_delete_self).
    split; [exact Hs|]. split.
    + unfold timeoutFire. rewrite Hp. reflexivity.
    + apply run_absent_stays_unsettled; assumption.
Qed.

(** C3 (refuted): closing the active socket leaves the invocation that was
    sent over it pending, with no rejection recorded. *)
Lemma socket_close_does_not_flush :
  ~ close_flushes (run close_events init) 1.
Proof.
  unfold close_flushes. intro H.
  destruct (H "chat-tool-1" eq_refl) as [H1 _].
  vm_compute in H1. discriminate.
Qed.

(** C3 (as the code does it): a socket close only clears [pluginSocket]
    when it is the closed socket; pending ids and settlements are
    unchanged. Afterwards only a timeout or a reply (socket message or
    [POST /result]) ever settles an invocation. *)
Theorem socket_close_keeps_pending (st : St) (n : nat) :
  pending (wsClose n st) = pending st /\
  settled (wsClose n st) = settled st /\
  pluginSocket (wsClose n st) =
    match pluginSocket st with
    | Some s => if Nat.eqb (sock_name s) n then None else Some s
    | None => None
    end /\
  (forall e : Event,
     match e with
     | EvTimeout _ | EvResult _ _ | EvWsMessage _ => True
     | _ => settled (step e st) = settled st
     end).
Proof.
  split; [|split; [|split]].
  - unfold wsClose. destruct (pluginSocket st) as [s|];
      [destruct (Nat.eqb (sock_name s) n)|]; reflexivity.
  - unfold wsClose. destruct (pluginSocket st) as [s|];
      [destruct (Nat.eqb (sock_name s) n)|]; reflexivity.
  - unfold wsClose. destruct (pluginSocket st) as [s|] eqn:Hs;
      [destruct (Nat.eqb (sock_name s) n)|]; simpl; rewrite ?Hs; reflexivity.
  - intros e. destruct e as [j t p|j|r m|m|s|k|r|r|r t|]; simpl; auto.
    + unfold sendToPlugin, enqueueForPoll. simpl.
      destruct (pluginSocket st) as [s|]; [destruct (Nat.eqb (sock_ready s) 1)|];
        simpl; try (destruct (waitingGetRes st));
        try (destruct (httpCommandQueue st ++ [mkCmd j t p])); reflexivity.
    + unfold wsClose. destruct (pluginSocket st) as [s|];
        [destruct (Nat.eqb (sock_name s) k)|]; reflexivity.
    + unfold handlePoll. destruct (httpCommandQueue st); reflexivity.
    + unfold pollClose. destruct (waitingGetRes st) as [w|];
        [destruct (Nat.eqb w r)|]; reflexivity.
Qed.

(** C4 (refuted): two polls on an empty queue; the first is neither
    parked nor answered after the second arrives, nor after a dispatch. *)
Lemma second_poll_drops_first :
  ~ answered_or_parked 1 (run [EvPoll 1; EvPoll 2] init) /\
  ~ answered_or_parked 1 (run [EvPoll 1; EvPoll 2; EvDispatch "chat-tool-1" "create_frame" []] init).
Proof.
  unfold answered_or_parked. split; intros [H | [s [p H]]];
    vm_compute in H; try discriminate.
  - exact H.
  - destruct H as [H | H]; [|exact H]. inversion H.
Qed.

(** C4 (as the code does it): the parked poll is a single slot; a second
    poll on an empty queue takes the slot over without answering the first,
    and the next dispatch without an open socket answers the second one
    only. *)
Theorem second_poll_replaces_parked (st : St) (r1 r2 : nat)
    (id tool : string) (params : JsonObject) :
  socket_open st = false -> httpCommandQueue st = [] -> waitingGetRes st = Some r1 ->
  let st2 := handlePoll r2 st in
  let st3 := sendToPlugin id tool params st2 in
  waitingGetRes st2 = Some r2 /\ httpWritten st2 = httpWritten st /\
  httpWritten st3 = httpWritten st ++ [(r2, 200%Z, PCmd (mkCmd id tool params))] /\
  waitingGetRes st3 = None /\ httpCommandQueue st3 = [].
Proof.
  intros Hs Hq Hw st2 st3. subst st2 st3.
  unfold socket_open in Hs.
  unfold handlePoll. rewrite Hq. simpl.
  unfold sendToPlugin, enqueueForPoll. simpl.
  destruct (pluginSocket st) as [s|];
    [destruct (Nat.eqb (sock_ready s) 1); [discriminate|]|];
    simpl; rewrite Hq; simpl; repeat split; reflexivity.
Qed.
Lemma wsMessage_reply (m : WsMsg) (st : St) :
  is_prompt_msg m = false ->
  wsMessage m st = deliverReply (m_id m) (m_result m) (m_error m) st.
Proof.
  unfold is_prompt_msg, wsMessage. intros H.
  destruct (m_type m) as [ty|], (m_text m) as [tx|]; auto. rewrite H. reflexivity.
Qed.

Lemma deliverReply_pending (i : string) (v : JVal) (err : option string) (st : St) :
  i <> "" -> has i (pending st) = true ->
  settled (deliverReply (Some i) v err st) =
    settled st ++ [(i, match err with
                       | Some e => if truthy_str e then Rejected e else Resolved v
                       | None => Resolved v
                       end)].
Proof.
  intros Hi Hp. unfold deliverReply.
  assert (Ht : truthy_str i = true)
    by (unfold truthy_str; destruct (String.eqb_spec i ""); [congruence|reflexivity]).
  rewrite Ht, Hp. simpl. destruct err as [e|]; [destruct (truthy_str e)|]; reflexivity.
Qed.

Lemma handleResult_settled (res : nat) (m : ResultMsg) (st : St) :
  settled (handleResult res m st) = settled (deliverReply (r_id m) (r_result m) (r_error m) st).
Proof. reflexivity. Qed.

Lemma truthy_nonempty (e : string) : e <> "" -> truthy_str e = true.
Proof.
  intros H. unfold truthy_str. destruct (String.eqb_spec e ""); [congruence|reflexivity].
Qed.

(** C10: on both ingress paths, a reply for a pending id with a non-empty
    [error] rejects with that error even when a [result] is present; the
    [result] resolves the promise only when [error] is absent or empty. *)
Theorem reply_error_takes_precedence :
  (forall (st : St) (res : nat) (i : string) (v : JVal) (e : string),
      i <> "" -> has i (pending st) = true -> e <> "" ->
      settled (handleResult res (mkResultMsg (Some i) v (Some e)) st)
        = settled st ++ [(i, Rejected e)]) /\
  (forall (st : St) (res : nat) (i : string) (v : JVal) (err : option string),
      i <> "" -> has i (pending st) = true -> (err = None \/ err = Some "") ->
      settled (handleResult res (mkResultMsg (Some i) v err) st)
        = settled st ++ [(i, Resolved v)]) /\
  (forall (st : St) (m : WsMsg) (i e : string),
      is_prompt_msg m = false -> m_id m = Some i -> i <> "" ->
      has i (pending st) = true -> m_error m = Some e -> e <> "" ->
      settled (wsMessage m st) = settled st ++ [(i, Rejected e)]) /\
  (forall (st : St) (m : WsMsg) (i : string),
      is_prompt_msg m = false -> m_id m = Some i -> i <> "" ->
      has i (pending st) = true -> (m_error m = None \/ m_error m = Some "") ->
      settled (wsMessage m st) = settled st ++ [(i, Resolved (m_result m))]).
Proof.
  split; [|split; [|split]].
  - intros st res i v e Hi Hp He. rewrite handleResult_settled. cbn [r_id r_result r_error].
    rewrite (deliverReply_pending i v (Some e) st Hi Hp), (truthy_nonempty e He).
    reflexivity.
  - intros st res i v err Hi Hp Herr. rewrite handleResult_settled. cbn [r_id r_result r_error].
    rewrite (deliverReply_pending i v err st Hi Hp).
    destruct Herr as [-> | ->]; reflexivity.
  - intros st m i e Hnp Hid Hi Hp He Hne.
    rewrite (wsMessage_reply m st Hnp), Hid.
    rewrite (deliverReply_pending i (m_result m) (m_error m) st Hi Hp), He,
      (truthy_nonempty e Hne).
    reflexivity.
  - intros st m i Hnp Hid Hi Hp Herr.
    rewrite (wsMessage_reply m st Hnp), Hid.
    rewrite (deliverReply_pending i (m_result m) (m_error m) st Hi Hp).
    destruct Herr as [-> | ->]; reflexivity.
Qed.

(** Events that never set the canvas handoff message. *)
Definition no_prompt_set (evs : list Event) : Prop :=
  Forall (fun e => match e with
                   | EvPrompt _ _ => False
                   | EvWsMessage m => is_prompt_msg m = false
                   | _ => True
                   end) evs.

Lemma deliverReply_prompt (mid : option string) (v : JVal) (err : option string) (st : St) :
  lastFigmaPrompt (deliverReply mid v err st) = lastFigmaPrompt st.
Proof.
  unfold deliverReply. destruct mid as [i|]; auto.
  destruct (truthy_str i && has i (pending st))%bool; auto.
  destruct err as [e|]; [destruct (truthy_str e)|]; reflexivity.
Qed.

Lemma run_keeps_no_prompt (evs : list Event) (st : St) :
  no_prompt_set evs -> lastFigmaPrompt st = None -> lastFigmaPrompt (run evs st) = None.
Proof.
  revert st. induction evs as [|e evs IH]; intros st H H0; simpl; auto.
  inversion H as [|? ? He Hrest]; subst. apply (IH _ Hrest).
  destruct e as [j t p|j|r m|m|s|n|r|r|r t|]; simpl; try contradiction.
  - unfold sendToPlugin, enqueueForPoll. simpl.
    destruct (pluginSocket st) as [s|]; [destruct (Nat.eqb (sock_ready s) 1)|];
      simpl; try (destruct (waitingGetRes st));
      try (destruct (httpCommandQueue st ++ [mkCmd j t p])); exact H0.
  - unfold timeoutFire. destruct (has j (pending st)); exact H0.
  - unfold handleResult. simpl. rewrite deliverReply_prompt. exact H0.
  - rewrite (wsMessage_reply m st He), deliverReply_prompt. exact H0.
  - exact H0.
  - unfold wsClose. destruct (pluginSocket st) as [s|];
      [destruct (Nat.eqb (sock_name s) n)|]; exact H0.
  - unfold handlePoll. destruct (httpCommandQueue st); exact H0.
  - unfold pollClose. destruct (waitingGetRes st) as [w|];
      [destruct (Nat.eqb w r)|]; exact H0.
  - reflexivity.
Qed.

(** C9: [get_figma_prompt] returns the stored handoff message and clears
    it in the same synchronous step (nothing else in the state changes);
    the stored message is the one set last, by [POST /prompt] or by a
    [figma_prompt] socket message (trimmed, blank meaning none); and after
    a read, any events that do not set a new message leave the next read
    answering "No prompt from Figma.". *)
Theorem get_figma_prompt_clears :
  (forall st : St,
      fst (getFigmaPrompt st) =
        match lastFigmaPrompt st with Some t => PromptText t | None => NoPrompt end /\
      snd (getFigmaPrompt st) = set_prompt None st /\
      forall evs : list Event, no_prompt_set evs ->
        fst (getFigmaPrompt (run evs (snd (getFigmaPrompt st)))) = NoPrompt) /\
  (forall (st : St) (res : nat) (t : string),
      fst (getFigmaPrompt (handlePrompt res (Some t) st)) =
        match trim_or_null t with Some u => PromptText u | None => NoPrompt end) /\
  (forall (st : St) (m : WsMsg) (t : string),
      m_type m = Some "figma_prompt" -> m_text m = Some t ->
      fst (getFigmaPrompt (wsMessage m st)) =
        match trim_or_null t with Some u => PromptText u | None => NoPrompt end).
Proof.
  split; [|split].
  - intros st. split; [reflexivity|]. split; [reflexivity|].
    intros evs H. unfold getFigmaPrompt at 1. simpl.
    rewrite (run_keeps_no_prompt evs (set_prompt None st) H eq_refl). reflexivity.
  - intros st res t. reflexivity.
  - intros st m t Hty Htx. unfold wsMessage. rewrite Hty, Htx. reflexivity.
Qed.

End RelayClaims.

Module OpenAIProofs.
Import OpenAI.

Section Loop.
Variable endpoint : nat -> Request -> string + Response.
Variable runToolOutcome : nat -> string -> JsonObject -> string + JVal.
Variable parseArgs : string -> JsonObject.

Definition last_response (st : AgentSt) : option Response := hd_error (rev (responses st)).

Lemma runCalls_ok (calls : list FunctionCall) :
  forall tc outs st, exists tc' outs',
    runCalls runToolOutcome parseArgs calls tc outs st =
      inr ((tc', outs'), mkAgentSt (ntool st + length calls) (requests st) (responses st)) /\
    length tc' = length tc + length calls.
Proof.
  induction calls as [|c rest IH]; intros tc outs st; simpl.
  - exists tc, outs. rewrite !Nat.add_0_r. destruct st; split; reflexivity.
  - unfold bind, runTool.
    destruct (runToolOutcome (ntool st) (fc_name c) (parseArgs (fc_arguments c))) as [e|v].
    + destruct (IH (tc ++ [mkExec (fc_name c) (parseArgs (fc_arguments c)) None (Some e)])
          (outs ++ [mkOutput (fc_call_id c) (JObj [("ok", JBool false); ("error", JStr e)])])
          (mkAgentSt (S (ntool st)) (requests st) (responses st))) as [tc' [outs' [H1 H2]]].
      exists tc', outs'. rewrite H1. simpl. rewrite H2, length_app. simpl.
      split; [do 2 f_equal; f_equal; lia | lia].
    + destruct (IH (tc ++ [mkExec (fc_name c) (parseArgs (fc_arguments c)) (Some v) None])
          (outs ++ [mkOutput (fc_call_id c) (JObj [("ok", JBool true); ("result", v)])])
          (mkAgentSt (S (ntool st)) (requests st) (responses st))) as [tc' [outs' [H1 H2]]].
      exists tc', outs'. rewrite H1. simpl. rewrite H2, length_app. simpl.
      split; [do 2 f_equal; f_equal; lia | lia].
Qed.

(** Each round of the loop sends at most one request, every executed
    call lands in the audit trail, and the response the loop stops on is
    the last one received. *)
Lemma agentLoop_rounds (model : string) (fuel : nat) :
  forall guard response tc st r' tc' st',
    agentLoop endpoint runToolOutcome parseArgs model fuel guard response tc st
      = inr ((r', tc'), st') ->
    length (requests st') <= length (requests st) + fuel /\
    length tc' + ntool st = length tc + ntool st' /\
    (last_response st = Some response -> last_response st' = Some r').
Proof.
  induction fuel as [|fuel IH]; intros guard response tc st r' tc' st' H; simpl in H.
  - injection H as <- <- <-. repeat split; auto; lia.
  - destruct (Nat.ltb guard 8).
    2:{ injection H as <- <- <-. repeat split; auto; lia. }
    destruct (extractOpenAIFunctionCalls response) as [|c cs] eqn:Hc.
    { injection H as <- <- <-. repeat split; auto; lia. }
    unfold bind at 1 in H.
    destruct (runCalls_ok (c :: cs) tc [] st) as [tc1 [outs1 [Hr Hl]]].
    rewrite Hr in H. unfold bind, createOpenAIResponse in H. simpl in H.
    destruct (endpoint (length (requests st))
                (ReqFollowUp model (resp_id response) outs1)) as [e|r1] eqn:He;
      [discriminate|].
    destruct (IH _ _ _ _ _ _ _ H) as [A [B C]]. simpl in A, B, C.
    rewrite length_app in A. simpl in A. split; [lia|]. split.
    + simpl in Hl. lia.
    + intros _. apply C. unfold last_response. simpl.
      rewrite rev_app_distr. reflexivity.
Qed.

Section Bounded.
Variable maxc : nat.
Hypothesis calls_bounded :
  forall n req r, endpoint n req = inr r -> length (extractOpenAIFunctionCalls r) <= maxc.

Lemma agentLoop_trail_bound (model : string) (fuel : nat) :
  forall guard response tc st r' tc' st',
    length (extractOpenAIFunctionCalls response) <= maxc ->
    agentLoop endpoint runToolOutcome parseArgs model fuel guard response tc st
      = inr ((r', tc'), st') ->
    length tc' <= length tc + fuel * maxc.
Proof.
  induction fuel as [|fuel IH]; intros guard response tc st r' tc' st' Hb H; simpl in H.
  - injection H as <- <- <-. lia.
  - destruct (Nat.ltb guard 8).
    2:{ injection H as <- <- <-. lia. }
    destruct (extractOpenAIFunctionCalls response) as [|c cs] eqn:Hc.
    { injection H as <- <- <-. lia. }
    unfold bind at 1 in H.
    destruct (runCalls_ok (c :: cs) tc [] st) as [tc1 [outs1 [Hr Hl]]].
    rewrite Hr in H. unfold bind, createOpenAIResponse in H. simpl in H.
    destruct (endpoint (length (requests st))
                (ReqFollowUp model (resp_id response) outs1)) as [e|r1] eqn:He;
      [discriminate|].
    pose proof (IH _ _ _ _ _ _ _ (calls_bounded _ _ _ He) H) as A.
    simpl in Hl. simpl in Hb. simpl. lia.
Qed.

End Bounded.
End Loop.

(** C5: whatever the endpoint answers, [runOpenAIAgent] sends at most
    9 requests (the first one and one per round, 8 rounds at most); every
    executed call is in the returned audit trail, whose length is at most
    8 times the largest number of calls any response requests; and the
    assistant text is taken from the last response received (["Done."]
    when it carries no text), also when the loop stops on its round cap. *)
Theorem openai_agent_bounded
    (endpoint : nat -> Request -> string + Response)
    (runToolOutcome : nat -> string -> JsonObject -> string + JVal)
    (parseArgs : string -> JsonObject) (maxc : nat)
    (message : string) (conversation : list ChatMessage)
    (model apiKey researchContext designProfile : string) (st0 : AgentSt) :
  (forall n req r, endpoint n req = inr r -> length (extractOpenAIFunctionCalls r) <= maxc) ->
  match runOpenAIAgent endpoint runToolOutcome parseArgs message conversation model
          apiKey researchContext designProfile st0 with
  | inl _ => True
  | inr ((assistant, toolCalls), st) =>
      length (requests st) <= length (requests st0) + 9 /\
      length toolCalls = ntool st - ntool st0 /\
      length toolCalls <= 8 * maxc /\
      exists r, last_response st = Some r /\ assistant = finalText r
  end.
Proof.
  intros Hb. unfold runOpenAIAgent, bind at 1, createOpenAIResponse.
  destruct (endpoint (length (requests st0)) _) as [e|r0] eqn:He0; [exact I|].
  unfold bind.
  set (st1 := mkAgentSt (ntool st0) (requests st0 ++ [ReqInitial model designProfile researchContext
                   (buildInput message conversation)]) (responses st0 ++ [r0])).
  destruct (agentLoop endpoint runToolOutcome parseArgs model 8 0 r0 [] st1)
    as [e|[[r' tc'] st']] eqn:Hl; [exact I|].
  unfold ret.
  destruct (agentLoop_rounds endpoint runToolOutcome parseArgs model 8 0 r0 [] st1 r' tc' st' Hl)
    as [A [B C]].
  pose proof (agentLoop_trail_bound endpoint runToolOutcome parseArgs maxc Hb model 8 0 r0 [] st1
                r' tc' st' (Hb _ _ _ He0) Hl) as D.
  subst st1. simpl in A, B, D. rewrite length_app in A. simpl in A.
  split; [lia|]. split; [lia|]. split; [lia|].
  exists r'. split; [|reflexivity]. apply C.
  unfold last_response. simpl. rewrite rev_app_distr. reflexivity.
Qed.

End OpenAIProofs.

Module LocalAgentProofs.
Import LocalAgent.

Section WithRelay.
Variable exec : nat -> string -> JsonObject -> string + JVal.
Variable firstCall : nat.

(** An audit entry agrees with the relay's answer to that call. *)
Definition entry_ok (o : string + JVal) (c : ExecutedToolCall) : Prop :=
  match o with
  | inr r => tc_result c = Some r /\ tc_error c = None
  | inl m => tc_result c = None /\ tc_error c = Some m
  end.

(** The [k]-th audit entry records the [k]-th relayed invocation. *)
Definition Inv (st : LSt) : Prop :=
  lcount st = firstCall + length (toolCalls st) /\
  forall k c, nth_error (toolCalls st) k = Some c ->
    entry_ok (exec (firstCall + k) (tc_tool c) (tc_params c)) c.

Definition pres {A} (m : LM A) : Prop := forall st, Inv st -> Inv (snd (m st)).
Definition adv {A} (d : nat) (m : LM A) : Prop :=
  forall st, length (toolCalls (snd (m st))) = length (toolCalls st) + d.

Lemma lbind_snd {A B} (m : LM A) (k : A -> LM B) (st : LSt) :
  snd (lbind m k st) = snd (k (fst (m st)) (snd (m st))).
Proof. unfold lbind. destruct (m st); reflexivity. Qed.

Lemma pres_bind {A B} (m : LM A) (k : A -> LM B) :
  pres m -> (forall a, pres (k a)) -> pres (lbind m k).
Proof. intros Hm Hk st H. rewrite lbind_snd. apply Hk, Hm, H. Qed.

Lemma adv_bind {A B} (d1 d2 : nat) (m : LM A) (k : A -> LM B) :
  adv d1 m -> (forall a, adv d2 (k a)) -> adv (d1 + d2) (lbind m k).
Proof. intros Hm Hk st. rewrite lbind_snd, Hk, Hm. lia. Qed.

Lemma pres_ret {A} (a : A) : pres (lret a).
Proof. intros st H. exact H. Qed.

Lemma adv_ret {A} (a : A) : adv 0 (lret a).
Proof. intros st. simpl. lia. Qed.

Lemma pres_run (tool : string) (params : JsonObject) : pres (run exec tool params).
Proof.
  intros st [Hc Hk]. unfold Inv, run. simpl. rewrite (List.length_app (toolCalls st)). simpl. split; [lia|].
  intros k c Hn.
  destruct (Nat.lt_ge_cases k (length (toolCalls st))) as [Hlt|Hge].
  - rewrite nth_error_app1 in Hn by exact Hlt. apply Hk, Hn.
  - rewrite nth_error_app2 in Hn by exact Hge.
    destruct (k - length (toolCalls st)) as [|j] eqn:Hj; [|destruct j; discriminate].
    simpl in Hn. injection Hn as <-.
    replace (firstCall + k) with (lcount st) by lia.
    destruct (exec (lcount st) tool params) as [m|r] eqn:E; unfold entry_ok; simpl; rewrite E; split; reflexivity.
Qed.

Lemma adv_run (tool : string) (params : JsonObject) : adv 1 (run exec tool params).
Proof. intros st. unfold run. simpl. rewrite (List.length_app (toolCalls st)). reflexivity. Qed.

Lemma pres_run_ (tool : string) (params : JsonObject) : pres (run_ exec tool params).
Proof. apply pres_bind; [apply pres_run|intros; apply pres_ret]. Qed.

Lemma adv_run_ (tool : string) (params : JsonObject) : adv 1 (run_ exec tool params).
Proof.
  unfold run_. replace 1 with (1 + 0) by reflexivity.
  apply adv_bind; [apply adv_run|intros; apply adv_ret].
Qed.

Lemma pres_forEach {A} (xs : list A) (body : A -> LM unit) :
  (forall x, pres (body x)) -> pres (forEach xs body).
Proof.
  intros Hb. induction xs as [|x xs IH]; simpl; [apply pres_ret|].
  apply pres_bind; [apply Hb|intros; exact IH].
Qed.

Lemma adv_forEach {A} (d : nat) (xs : list A) (body : A -> LM unit) :
  (forall x, adv d (body x)) -> adv (length xs * d) (forEach xs body).
Proof.
  intros Hb. induction xs as [|x xs IH]; simpl; [apply adv_ret|].
  apply adv_bind; [apply Hb|intros; exact IH].
Qed.

Ltac recipe_pres :=
  repeat first [ apply pres_bind; [|intro]
               | apply pres_forEach; intro
               | apply pres_run | apply pres_run_ | apply pres_ret ].

Lemma adv_bind_eq {A B} (d d1 d2 : nat) (m : LM A) (k : A -> LM B) :
  adv d1 m -> (forall a, adv d2 (k a)) -> d = d1 + d2 -> adv d (lbind m k).
Proof. intros Hm Hk ->. apply adv_bind; assumption. Qed.

Lemma adv_forEach_eq {A} (n d : nat) (xs : list A) (body : A -> LM unit) :
  (forall x, adv d (body x)) -> n = length xs * d -> adv n (forEach xs body).
Proof. intros Hb ->. apply adv_forEach, Hb. Qed.

Ltac recipe_adv :=
  repeat match goal with
         | |- adv _ (run _ _ _) => apply adv_run
         | |- adv _ (lret _) => apply adv_ret
         | |- adv _ (forEach _ _) => eapply adv_forEach_eq; [ intro; cbv beta | ]
         | |- adv _ (lbind _ _) => eapply adv_bind_eq; [ | intro; cbv beta | ]
         end.

Lemma buttonRecipe_pres (rootId : string) : pres (buttonRecipe exec rootId).
Proof. unfold buttonRecipe. recipe_pres. Qed.

Lemma dashboardRecipe_pres (rootId : string) : pres (dashboardRecipe exec rootId).
Proof. unfold dashboardRecipe. recipe_pres. Qed.

Lemma landingRecipe_pres (message rootId : string) : pres (landingRecipe exec message rootId).
Proof. unfold landingRecipe. recipe_pres. Qed.

Lemma buttonRecipe_adv (rootId : string) : adv 7 (buttonRecipe exec rootId).
Proof.
  unfold buttonRecipe, run_. cbv zeta. recipe_adv.
  all: simpl; reflexivity.
Qed.

Lemma dashboardRecipe_adv (rootId : string) : adv 21 (dashboardRecipe exec rootId).
Proof.
  unfold dashboardRecipe, run_. cbv zeta. recipe_adv.
  all: simpl; reflexivity.
Qed.

Lemma landingRecipe_adv (message rootId : string) : adv 22 (landingRecipe exec message rootId).
Proof.
  unfold landingRecipe, run_. cbv zeta. recipe_adv.
  all: simpl; reflexivity.
Qed.

End WithRelay.

Lemma recipe_props (exec : nat -> string -> JsonObject -> string + JVal) (firstCall : nat)
    (message : string) (b rootId : string) :
  let R := if isButton b then buttonRecipe exec rootId
           else if isDashboard b then dashboardRecipe exec rootId
           else landingRecipe exec message rootId in
  pres exec firstCall R /\ adv (recipeLength b) R.
Proof.
  intros R. subst R. unfold recipeLength.
  destruct (isButton b); [|destruct (isDashboard b)];
    split; auto using buttonRecipe_pres, buttonRecipe_adv, dashboardRecipe_pres,
      dashboardRecipe_adv, landingRecipe_pres, landingRecipe_adv.
Qed.

Lemma lbind_apply {A B} (m : LM A) (k : A -> LM B) (st : LSt) :
  lbind m k st = k (fst (m st)) (snd (m st)).
Proof. unfold lbind. destruct (m st); reflexivity. Qed.

Lemma localAgent_spec (exec : nat -> string -> JsonObject -> string + JVal)
    (firstCall : nat) (message researchContext designProfile : string) :
  let b := blended message researchContext designProfile in
  let r := localAgent exec message researchContext designProfile (mkLSt firstCall []) in
  Inv exec firstCall (snd r) /\
  (if rootReady exec firstCall b
   then length (toolCalls (snd r)) = 1 + recipeLength b /\ fst r = summary (toolCalls (snd r))
   else length (toolCalls (snd r)) = 1 /\ fst r = rootFailMessage).
Proof.
  intros b r. subst r. unfold localAgent. fold b.
  set (P := [("name", JStr (if isDashboard b then "App Shell Canvas" else "Landing Canvas"))]).
  set (st0 := mkLSt firstCall []).
  assert (H0 : Inv exec firstCall st0).
  { split; [simpl; lia|]. intros k c H. destruct k; discriminate. }
  pose proof (pres_run exec firstCall "create_frame" P st0 H0) as H1.
  rewrite lbind_apply.
  set (v := fst (run exec "create_frame" P st0)) in *.
  set (st1 := snd (run exec "create_frame" P st0)) in *.
  assert (Hv : v = match exec firstCall "create_frame" P with inr r => r | inl _ => JNull end)
    by reflexivity.
  assert (L1 : length (toolCalls st1) = 1) by reflexivity.
  unfold rootReady. fold P. rewrite <- Hv.
  destruct (extractNodeId v) as [rootId|]; [destruct (truthy_str rootId)|].
  - destruct (recipe_props exec firstCall message b rootId) as [Hp Ha].
    set (R := if isButton b then buttonRecipe exec rootId
              else if isDashboard b then dashboardRecipe exec rootId
              else landingRecipe exec message rootId) in *.
    rewrite lbind_apply. cbv beta. cbn [fst snd].
    pose proof (Hp st1 H1) as H2. pose proof (Ha st1) as L2.
    split; [exact H2|]. split; [lia|reflexivity].
  - cbn [fst snd lret]. split; [exact H1|]. split; [lia|reflexivity].
  - cbn [fst snd lret]. split; [exact H1|]. split; [lia|reflexivity].
Qed.

(** C8 (as the code does it): every relayed invocation is appended to the
    audit trail with its own outcome (result or error), in issue order.
    If the root [create_frame] fails or returns no usable id, the agent
    stops there with the "could not initialize a root frame" reply and a
    one-entry trail; otherwise the whole recipe selected by the message is
    issued whatever the later calls return, and the reply is the summary
    counting successes and errors. *)
Theorem local_agent_root_gate
    (exec : nat -> string -> JsonObject -> string + JVal) (firstCall : nat)
    (message researchContext designProfile : string) :
  let r := runLocalAgent exec firstCall message researchContext designProfile in
  let b := blended message researchContext designProfile in
  snd r = length (snd (fst r)) /\
  (forall k c, nth_error (snd (fst r)) k = Some c ->
     entry_ok (exec (firstCall + k) (tc_tool c) (tc_params c)) c) /\
  (if rootReady exec firstCall b
   then length (snd (fst r)) = 1 + recipeLength b /\ fst (fst r) = summary (snd (fst r))
   else length (snd (fst r)) = 1 /\ fst (fst r) = rootFailMessage).
Proof.
  intros r b. subst r b. unfold runLocalAgent.
  pose proof (localAgent_spec exec firstCall message researchContext designProfile) as H.
  cbv zeta in H.
  destruct (localAgent exec message researchContext designProfile (mkLSt firstCall []))
    as [a st].
  cbn [fst snd] in H |- *. destruct H as [[Hc Hk] H].
  split; [lia|]. split; [exact Hk|exact H].
Qed.

(** C8 (refuted): with a relay on which every call times out, the plain
    message "hello" issues the root frame only; the failure of that first
    call aborts the rest of the recipe and the reply is the root-failure
    message, not a mixed-result summary. *)
Lemma root_failure_aborts_recipe :
  ~ failures_do_not_abort "hello" "" "" /\
  fst (fst (runLocalAgent allFail 0 "hello" "" "")) = rootFailMessage.
Proof.
  split.
  - intros H. specialize (H allFail). vm_compute in H. discriminate.
  - vm_compute. reflexivity.
Qed.

End LocalAgentProofs.

Module ChatProofs.
Import Relay Chat.

(** Claim C7: a chat turn whose trimmed message is empty, or that arrives
    while the bridge is not ready (no open socket and no parked poll), or
    that selects the [openai] planner with no usable API key (the payload key
    trims to nothing and the environment key is unset or empty), is rejected
    with one error before either planner runs: the relay state, and with it
    every pending, queued or sent invocation, is unchanged, and the [/chat]
    route answers 400 with that error. *)
Theorem chat_rejected_without_dispatch (envKey : option string)
    (runLocal : string -> string -> string -> St ->
       (string + (string * list ExecutedToolCall)) * St)
    (runOpenAI : string -> list ChatMessage -> string -> string -> string -> string -> St ->
       (string + (string * list ExecutedToolCall)) * St)
    (payload : ChatRequest) (st : St) :
  (trim (coalesce (message payload) "") = ""
   \/ pluginBridgeReady st = false
   \/ (to_lower (coalesce (provider payload) "local") = "openai"
       /\ (forall k, apiKey payload = Some k -> trim k = "")
       /\ (envKey = None \/ envKey = Some ""))) ->
  exists e, handleChatRequest envKey runLocal runOpenAI payload st = (inl e, st)
         /\ chatRoute envKey runLocal runOpenAI payload st = ((400, ChatError e), st).
Proof.
  intros H.
  assert (Hh : exists e, handleChatRequest envKey runLocal runOpenAI payload st = (inl e, st)).
  { unfold handleChatRequest. cbv zeta.
    destruct H as [H | [H | [Hp [Hk He]]]].
    - rewrite H. simpl. eexists; reflexivity.
    - rewrite H. destruct (truthy_str (trim (coalesce (message payload) ""))); simpl;
        eexists; reflexivity.
    - rewrite Hp. destruct (truthy_str (trim (coalesce (message payload) ""))); simpl;
        [| eexists; reflexivity].
      destruct (pluginBridgeReady st); simpl; [| eexists; reflexivity].
      unfold resolveApiKey.
      destruct (apiKey payload) as [k|]; [rewrite (Hk k eq_refl)|];
        destruct He as [-> | ->]; simpl; eexists; reflexivity. }
  destruct Hh as [e He]. exists e. split; [exact He|].
  unfold chatRoute. rewrite He. reflexivity.
Qed.

End ChatProofs.

Module PortsProofs.
Import Ports PortsNode.

(** A fresh attempt on ([w], [h]): [tryPortPair] has run, [httpServer]
    is not listening, no retry is scheduled and nothing has been logged. *)
Definition fresh (s : NSt) (w h : nat) : Prop :=
  attemptPorts s = (w, h) /\ httpListeningOn s = None /\ portRetryPending s = false
  /\ retryAt s = None /\ exited s = false /\ listeningLog s = [].

Lemma last_cons_ne (a d d' : NSt) (l : list NSt) :
  l <> [] -> last (a :: l) d = last l d'.
Proof.
  revert a. induction l as [|x l IH]; intros a H; [contradiction|].
  destruct l as [|y l]; [reflexivity|].
  change (last (x :: y :: l) d = last (y :: l) d').
  rewrite <- (IH x) by discriminate. reflexivity.
Qed.

Lemma last_default (l : list NSt) (d d' : NSt) :
  l <> [] -> last l d = last l d'.
Proof.
  destruct l as [|a l]; intros H; [contradiction|].
  destruct l as [|b l]; [reflexivity|].
  rewrite (last_cons_ne a d a (b :: l)), (last_cons_ne a d' a (b :: l)) by discriminate.
  reflexivity.
Qed.

(** One attempt ends exited after a hard bind failure, or with a retry of
    the next pair scheduled and [httpServer] closed, or bound to the
    whole pair, which it then advertises and logs. *)
Lemma attempt_result (httpBind : nat -> BindOutcome) (probeFree : nat -> bool)
    (wsBind : nat -> BindOutcome) (s : NSt) (w h : nat) :
  fresh s w h ->
  let s' := nrun (attemptEvents httpBind probeFree wsBind s) s in
  (exited s' = true /\
   (httpBind h = BindFail \/ (probeFree w = true /\ wsBind w = BindFail)))
  \/ (exited s' = false /\ pairOk httpBind probeFree wsBind w h = false
      /\ httpListeningOn s' = None /\ retryAt s' = Some (w + 2, h + 2)
      /\ portRetryPending s' = true /\ listeningLog s' = [])
  \/ (exited s' = false /\ pairOk httpBind probeFree wsBind w h = true
      /\ retryAt s' = None /\ health s' = Some (w, h) /\ holds s' (w, h) = true
      /\ listeningLog s' = [(w, h)]).
Proof.
  destruct s as [c rp aw ah ap hl ws wb ra lg ex].
  intros (Hap & Hhl & Hrp & Hra & Hex & Hlg); simpl in *; subst.
  unfold attemptEvents, pairOk; simpl.
  destruct (httpBind h) eqn:Eh.
  - simpl. rewrite Nat.eqb_refl. simpl.
    destruct (probeFree w) eqn:Ep; simpl; rewrite ?Nat.eqb_refl; simpl.
    + destruct (wsBind w) eqn:Ew; simpl; rewrite ?Nat.eqb_refl; simpl.
      * right; right. rewrite !Nat.eqb_refl. simpl. repeat split.
      * right; left. repeat split.
      * left. split; [reflexivity | right; split; reflexivity].
    + right; left. destruct (wsBind w); repeat split.
  - simpl. right; left. repeat split.
  - simpl. left. split; [reflexivity | left; reflexivity].
Qed.

(** [runRetry] after a failed attempt on ([w], [h]): the process exits
    past [FIGSOR_PORT_MAX], otherwise the next pair is a fresh attempt. *)
Lemma retry_result (s : NSt) (w h : nat) :
  exited s = false -> httpListeningOn s = None -> retryAt s = Some (w + 2, h + 2) ->
  listeningLog s = [] ->
  (FIGSOR_PORT_MAX < h + 2 /\ exited (nstep NRetry s) = true)
  \/ (h + 2 <= FIGSOR_PORT_MAX /\ fresh (nstep NRetry s) (w + 2) (h + 2)).
Proof.
  destruct s as [c rp aw ah ap hl ws wb ra lg ex].
  simpl. intros Hex Hhl Hra Hlg; subst.
  unfold tryPortPair. simpl.
  destruct (Nat.ltb_spec FIGSOR_PORT_MAX (h + 2)).
  - left. split; [exact H | reflexivity].
  - right. split; [exact H|]. unfold fresh. simpl. repeat split.
Qed.

Lemma attempts_nonempty (httpBind : nat -> BindOutcome) (probeFree : nat -> bool)
    (wsBind : nat -> BindOutcome) (f : nat) (s : NSt) :
  attempts httpBind probeFree wsBind (S f) s <> [].
Proof. simpl. destruct (exited s); discriminate. Qed.

Lemma attempts_exited (httpBind : nat -> BindOutcome) (probeFree : nat -> bool)
    (wsBind : nat -> BindOutcome) (f : nat) (s : NSt) :
  exited s = true -> attempts httpBind probeFree wsBind (S f) s = [s].
Proof. intros H. simpl. rewrite H. reflexivity. Qed.

Section Run.
Variable httpBind : nat -> BindOutcome.
Variable probeFree : nat -> bool.
Variable wsBind : nat -> BindOutcome.

Let ok := pairOk httpBind probeFree wsBind.

(** What the attempts from a fresh attempt on ([w], [h]) guarantee, given
    enough fuel to reach the end of the port range. *)
Lemma attempts_spec (f : nat) : forall (s : NSt) (w h : nat),
  fresh s w h -> h <= FIGSOR_PORT_MAX -> FIGSOR_PORT_MAX + 3 <= f + h ->
  let ss := attempts httpBind probeFree wsBind f s in
  let sf := last ss s in
  (forall t p, In t ss -> exited t = false -> health t = Some p -> holds t p = true) /\
  (exited sf = false ->
   exists k, h + 2 * k <= FIGSOR_PORT_MAX
     /\ health sf = Some (w + 2 * k, h + 2 * k)
     /\ holds sf (w + 2 * k, h + 2 * k) = true
     /\ listeningLog sf = [(w + 2 * k, h + 2 * k)]
     /\ ok (w + 2 * k) (h + 2 * k) = true
     /\ (forall j, j < k -> ok (w + 2 * j) (h + 2 * j) = false)) /\
  ((forall p, httpBind p <> BindFail /\ wsBind p <> BindFail) ->
   (exists k, h + 2 * k <= FIGSOR_PORT_MAX /\ ok (w + 2 * k) (h + 2 * k) = true) ->
   exited sf = false).
Proof.
  induction f as [|f IH]; intros s w h Hf Hh Hfuel; [lia|].
  cbv zeta. cbn [attempts]. destruct Hf as (Hap & Hhl & Hrp & Hra & Hex & Hlg).
  assert (Hf : fresh s w h) by (repeat split; assumption).
  rewrite Hex.
  generalize (attempt_result httpBind probeFree wsBind s w h Hf). cbv zeta.
  generalize (nrun (attemptEvents httpBind probeFree wsBind s) s) as s'.
  intros s' [(Ex & Hfail) | [(Ex & Hok & Hhl' & Hra' & Hrp' & Hlg') | (Ex & Hok & Hra' & Hhe & Hho & Hlg')]].
  - rewrite Ex. simpl. split; [|split].
    + intros t p [<-|[]]. rewrite Ex. discriminate.
    + rewrite Ex. discriminate.
    + intros Hnf _. exfalso. destruct Hfail as [Hb|[_ Hb]];
        [apply (proj1 (Hnf h)) | apply (proj2 (Hnf w))]; exact Hb.
  - rewrite Ex, Hra'.
    destruct (retry_result s' w h Ex Hhl' Hra' Hlg') as [(Hlt & Ex2) | (Hle & Hf2)].
    + destruct f as [|f]; [lia|]. rewrite (attempts_exited _ _ _ f _ Ex2).
      cbn [In last]. split; [|split].
      * intros t p [<-|[<-|[]]]; [|rewrite Ex2; discriminate].
        unfold health. rewrite Hhl'. discriminate.
      * rewrite Ex2. discriminate.
      * intros _ [k [Hk Hok']]. exfalso. destruct k as [|k].
        -- rewrite !Nat.add_0_r in Hok'. unfold ok in Hok'. congruence.
        -- lia.
    + destruct (IH (nstep NRetry s') (w + 2) (h + 2) Hf2 Hle ltac:(lia)) as [S1 [S2 S3]].
      assert (Hne : attempts httpBind probeFree wsBind f (nstep NRetry s') <> []).
      { destruct f as [|f]; [lia | apply attempts_nonempty]. }
      rewrite (last_cons_ne s' s (nstep NRetry s') _ Hne).
      split; [|split].
      * intros t p [<-|Hin].
        -- unfold health. rewrite Hhl'. discriminate.
        -- exact (S1 t p Hin).
      * intros Hsf. destruct (S2 Hsf) as [k (K1 & K2 & K3 & K4 & K5 & K6)].
        exists (S k).
        replace (w + 2 * S k) with (w + 2 + 2 * k) by lia.
        replace (h + 2 * S k) with (h + 2 + 2 * k) by lia.
        repeat split; try assumption; try lia.
        intros j Hj. destruct j as [|j].
        -- rewrite !Nat.add_0_r. exact Hok.
        -- replace (w + 2 * S j) with (w + 2 + 2 * j) by lia.
           replace (h + 2 * S j) with (h + 2 + 2 * j) by lia.
           apply K6. lia.
      * intros Hnf [k [Hk Hok']]. apply (S3 Hnf). destruct k as [|k].
        -- rewrite !Nat.add_0_r in Hok'. unfold ok in Hok'. congruence.
        -- exists k.
           replace (w + 2 * S k) with (w + 2 + 2 * k) in * by lia.
           replace (h + 2 * S k) with (h + 2 + 2 * k) in * by lia.
           split; assumption.
  - rewrite Ex, Hra'. simpl. split; [|split].
    + intros t p [<-|[]] _ Hp. rewrite Hhe in Hp. injection Hp as <-. exact Hho.
    + intros _. exists 0. rewrite !Nat.add_0_r.
      repeat split; try assumption. intros j Hj. lia.
    + intros _ _. exact Ex.
Qed.

End Run.

(** Claim C6: only the current attempt's callbacks act: a probe or [wss]
    error of a superseded attempt changes nothing, its [listen] callback
    only records the OS-level bind (no new advertised pair), and its
    [listening] event logs nothing.  Under Node's ordering of the startup
    callbacks, [/health] never advertises a pair the process does not
    hold; when the negotiator does not exit it holds, advertises and logs
    the first pair (P + 2k, P + 1 + 2k) within [FIGSOR_PORT_MAX] that can
    be taken, every earlier pair having failed with an address in use;
    and it does not exit when such a pair exists and no bind fails with
    another error. *)
Theorem port_negotiation_holds_advertised_pair
    (httpBind : nat -> BindOutcome) (probeFree : nat -> bool)
    (wsBind : nat -> BindOutcome) (P : nat) :
  let ss := startupStates httpBind probeFree wsBind P in
  let sf := last ss (initAt P) in
  let ok := pairOk httpBind probeFree wsBind in
  (forall id w h b s, id <> portBindAttemptCounter s ->
     nstep (NProbe id w h b) s = s /\ nstep (NWssError id w h b) s = s
     /\ nstep (NHttpListen id w h) s = set_http (Some h) s
     /\ listeningLog (nstep (NWssListening id w h) s) = listeningLog s) /\
  (forall t p, In t ss -> exited t = false -> health t = Some p -> holds t p = true) /\
  (exited sf = false ->
   exists k, P + 1 + 2 * k <= FIGSOR_PORT_MAX
     /\ health sf = Some (P + 2 * k, P + 1 + 2 * k)
     /\ holds sf (P + 2 * k, P + 1 + 2 * k) = true
     /\ listeningLog sf = [(P + 2 * k, P + 1 + 2 * k)]
     /\ ok (P + 2 * k) (P + 1 + 2 * k) = true
     /\ (forall j, j < k -> ok (P + 2 * j) (P + 1 + 2 * j) = false)) /\
  ((forall p, httpBind p <> BindFail /\ wsBind p <> BindFail) ->
   (exists k, P + 1 + 2 * k <= FIGSOR_PORT_MAX /\ ok (P + 2 * k) (P + 1 + 2 * k) = true) ->
   exited sf = false).
Proof.
  cbv zeta. split.
  { intros id w h b s Hid. apply Nat.eqb_neq in Hid.
    split; [simpl; rewrite Hid; reflexivity|].
    split; [simpl; rewrite Hid; reflexivity|].
    split; [simpl; rewrite Hid; reflexivity|].
    simpl. destruct (opt_eqb (wss s) (Some w)); simpl; rewrite Hid; reflexivity. }
  unfold startupStates, startupFuel.
  replace (FIGSOR_PORT_MAX + 3) with (S (FIGSOR_PORT_MAX + 2)) by lia.
  set (s0 := nstep (NTry P (P + 1)) (initAt P)).
  assert (Hne : attempts httpBind probeFree wsBind (S (FIGSOR_PORT_MAX + 2)) s0 <> [])
    by apply attempts_nonempty.
  rewrite (last_default _ (initAt P) s0 Hne).
  destruct (Nat.ltb_spec FIGSOR_PORT_MAX (P + 1)) as [Hlt|Hle].
  - assert (Ex : exited s0 = true) by (unfold s0; simpl; unfold tryPortPair;
      simpl; destruct (Nat.ltb_spec FIGSOR_PORT_MAX (P + 1)); [reflexivity | lia]).
    rewrite (attempts_exited _ _ _ _ s0 Ex). cbn [In last].
    split; [|split].
    + intros t p [<-|[]]. rewrite Ex. discriminate.
    + rewrite Ex. discriminate.
    + intros _ [k [Hk _]]. lia.
  - assert (Hf : fresh s0 P (P + 1)).
    { unfold s0, fresh. simpl. unfold tryPortPair. simpl.
      destruct (Nat.ltb_spec FIGSOR_PORT_MAX (P + 1)); [lia|]. simpl. repeat split. }
    destruct (attempts_spec httpBind probeFree wsBind (S (FIGSOR_PORT_MAX + 2)) s0 P (P + 1)
                Hf Hle ltac:(lia)) as [S1 [S2 S3]].
    split; [exact S1|]. split; [exact S2 | exact S3].
Qed.

End PortsProofs.

(* ------------------------------------------------------------------ *)
(** ** The claims at concrete inputs *)

Module RelayWitnesses.
Import Relay RelayScenarios RelayClaims.

(** A relay with invocation "a" pending and nothing else. *)
Definition st_a : St := mkSt None ["a"] [] None None [] [] [].

Lemma late_reply_ignored_witness :
  (has "a" (pending init) = false /\
   handleResult 0 (mkResultMsg (Some "a") JNull None) init = writeJson 0 200 PEmpty init) /\
  (has "a" (pending st_a) = true /\
   no_redispatch "a" [EvResult 0 (mkResultMsg (Some "a") JNull None)] /\
   has "a" (pending (timeoutFire "a" st_a)) = false /\
   settled (timeoutFire "a" st_a) = settled st_a ++ [("a", Rejected "Plugin timeout")] /\
   exists later,
     settled (run [EvResult 0 (mkResultMsg (Some "a") JNull None)] (timeoutFire "a" st_a))
       = settled (timeoutFire "a" st_a) ++ later /\
     Forall (fun p => fst p <> "a") later).
Proof.
  split.
  - split; [reflexivity|].
    apply (proj1 late_reply_ignored_timeout_once) with (i := "a"); reflexivity.
  - split; [reflexivity|]. split; [repeat constructor; discriminate|].
    apply (proj2 (proj2 late_reply_ignored_timeout_once)).
    + reflexivity.
    + repeat constructor; discriminate.
Defined.

Lemma second_poll_replaces_parked_witness :
  socket_open (mkSt None [] [] (Some 1) None [] [] []) = false /\
  waitingGetRes (handlePoll 2 (mkSt None [] [] (Some 1) None [] [] [])) = Some 2 /\
  httpWritten (sendToPlugin "a" "create_frame" [] (handlePoll 2 (mkSt None [] [] (Some 1) None [] [] [])))
    = [(2, 200%Z, PCmd (mkCmd "a" "create_frame" []))].
Proof.
  split; [reflexivity|].
  destruct (second_poll_replaces_parked (mkSt None [] [] (Some 1) None [] [] []) 1 2
              "a" "create_frame" [] eq_refl eq_refl eq_refl) as [H1 [_ [H3 _]]].
  split; [exact H1 | exact H3].
Defined.

Lemma reply_error_takes_precedence_witness :
  "a" <> "" /\ has "a" (pending st_a) = true /\ "boom" <> "" /\
  settled (handleResult 0 (mkResultMsg (Some "a") (JNum 1) (Some "boom")) st_a)
    = settled st_a ++ [("a", Rejected "boom")].
Proof.
  split; [discriminate|]. split; [reflexivity|]. split; [discriminate|].
  apply (proj1 reply_error_takes_precedence); [discriminate | reflexivity | discriminate].
Defined.

Lemma get_figma_prompt_clears_witness :
  m_type (mkWsMsg (Some "figma_prompt") (Some " hi ") None JNull None) = Some "figma_prompt" /\
  fst (getFigmaPrompt (wsMessage (mkWsMsg (Some "figma_prompt") (Some " hi ") None JNull None) init))
    = match trim_or_null " hi " with Some u => PromptText u | None => NoPrompt end.
Proof.
  split; [reflexivity|].
  apply (proj2 (proj2 get_figma_prompt_clears)); reflexivity.
Defined.

End RelayWitnesses.

Module OpenAIWitnesses.
Import OpenAI OpenAIProofs.

(** An endpoint that asks for one [create_frame] call in every response. *)
Definition one_call_endpoint (n : nat) (req : Request) : string + Response :=
  inr (mkResponse "resp"  None
         (Some [mkItem (Some "function_call") (Some "create_frame") (Some "call-1")
                       (Some "{}") None])).

Definition ok_tool (n : nat) (tool : string) (params : JsonObject) : string + JVal := inr JNull.

Definition no_args (s : string) : JsonObject := [].

Lemma one_call_endpoint_bounded :
  forall n req r, one_call_endpoint n req = inr r -> length (extractOpenAIFunctionCalls r) <= 1.
Proof. intros n req r H. injection H as <-. simpl. lia. Defined.

Lemma openai_agent_bounded_witness :
  (forall n req r, one_call_endpoint n req = inr r -> length (extractOpenAIFunctionCalls r) <= 1) /\
  match runOpenAIAgent one_call_endpoint ok_tool no_args "make a button" [] "gpt-5-mini"
          "key" "" "" (mkAgentSt 0 [] []) with
  | inl _ => True
  | inr ((assistant, toolCalls), st) =>
      length (requests st) <= length (requests (mkAgentSt 0 [] [])) + 9 /\
      length toolCalls = ntool st - ntool (mkAgentSt 0 [] []) /\
      length toolCalls <= 8 * 1 /\
      exists r, last_response st = Some r /\ assistant = finalText r
  end.
Proof.
  split; [exact one_call_endpoint_bounded|].
  exact (openai_agent_bounded one_call_endpoint ok_tool no_args 1 "make a button" [] "gpt-5-mini"
           "key" "" "" (mkAgentSt 0 [] []) one_call_endpoint_bounded).
Defined.

End OpenAIWitnesses.

Module LocalAgentWitnesses.
Import LocalAgent LocalAgentProofs.

Lemma local_agent_root_gate_witness :
  nth_error (snd (fst (runLocalAgent allFail 0 "hello" "" ""))) 0
    = Some (mkExec "create_frame" [("name", JStr "Landing Canvas")] None (Some "Plugin timeout")) /\
  entry_ok (allFail (0 + 0) "create_frame" [("name", JStr "Landing Canvas")])
           (mkExec "create_frame" [("name", JStr "Landing Canvas")] None (Some "Plugin timeout")).
Proof.
  split; [vm_compute; reflexivity|].
  apply (proj1 (proj2 (local_agent_root_gate allFail 0 "hello" "" "")) 0).
  vm_compute. reflexivity.
Defined.

End LocalAgentWitnesses.

Module ChatWitnesses.
Import Relay Chat ChatProofs.

Definition idle_local (m rc dp : string) (st : St) : (string + (string * list ExecutedToolCall)) * St :=
  (inr ("Done.", []), st).
Definition idle_openai (m : string) (c : list ChatMessage) (model key rc dp : string) (st : St)
  : (string + (string * list ExecutedToolCall)) * St :=
  (inr ("Done.", []), st).

(** An [openai] turn with a blank payload key, no environment key, and a
    parked poll that makes the bridge ready. *)
Definition keyless : ChatRequest :=
  mkChatRequest (Some "OpenAI") None (Some "  ") (Some "make a card") None None None.

Lemma chat_rejected_without_dispatch_witness :
  pluginBridgeReady (mkSt None [] [] (Some 7) None [] [] []) = true /\
  exists e,
    handleChatRequest None idle_local idle_openai keyless (mkSt None [] [] (Some 7) None [] [] [])
      = (inl e, mkSt None [] [] (Some 7) None [] [] []) /\
    chatRoute None idle_local idle_openai keyless (mkSt None [] [] (Some 7) None [] [] [])
      = ((400, ChatError e), mkSt None [] [] (Some 7) None [] [] []).
Proof.
  split; [reflexivity|].
  apply chat_rejected_without_dispatch.
  right. right. split; [vm_compute; reflexivity|]. split.
  - intros k Hk. injection Hk as <-. vm_compute. reflexivity.
  - left. reflexivity.
Defined.

End ChatWitnesses.

Module RelayExtras.
Import Relay RelayViews RelayProofs.

Definition parked_empty (st : St) : Prop :=
  match waitingGetRes st with Some _ => httpCommandQueue st = [] | None => True end.

Lemma parked_empty_step (e : Event) (st : St) :
  parked_empty st -> parked_empty (step e st).
Proof.
  unfold parked_empty. intros H.
  destruct e as [j t p|j|r m|m|s|n|r|r|r t|]; simpl.
  - unfold sendToPlugin, enqueueForPoll. simpl.
    destruct (waitingGetRes st) as [w|] eqn:Hw.
    + destruct (pluginSocket st) as [s|]; try destruct (Nat.eqb (sock_ready s) 1); simpl;
        rewrite ?Hw, ?H; simpl; auto.
    + destruct (pluginSocket st) as [s|]; try destruct (Nat.eqb (sock_ready s) 1); simpl;
        rewrite ?Hw; simpl; auto.
  - unfold timeoutFire. destruct (has j (pending st)); exact H.
  - unfold handleResult, deliverReply. simpl.
    destruct (r_id m) as [i|]; [destruct (truthy_str i && has i (pending st))%bool|]; simpl;
      [destruct (r_error m) as [e|]; [destruct (truthy_str e)|]|..]; exact H.
  - unfold wsMessage, deliverReply.
    destruct (m_type m) as [ty|], (m_text m) as [tx|];
      try destruct (String.eqb ty "figma_prompt");
      try exact H;
      destruct (m_id m) as [i|]; try destruct (truthy_str i && has i (pending st))%bool;
      try destruct (m_error m) as [e|]; try destruct (truthy_str e); exact H.
  - exact H.
  - unfold wsClose. destruct (pluginSocket st) as [s|];
      [destruct (Nat.eqb (sock_name s) n)|]; exact H.
  - unfold handlePoll. destruct (httpCommandQueue st) as [|c q] eqn:Hq; simpl; [exact Hq|].
    destruct (waitingGetRes st); [discriminate H | exact I].
  - unfold pollClose. destruct (waitingGetRes st) as [w|] eqn:Hw;
      [destruct (Nat.eqb w r)|]; simpl; auto; rewrite Hw; exact H.
  - exact H.
  - exact H.
Qed.

(** A parked long-poll and a non-empty command queue never coexist: in
    every state the relay reaches from startup, if a poll response is
    parked then [httpCommandQueue] is empty. *)
Theorem parked_poll_implies_empty_queue (evs : list Event) :
  waitingGetRes (run evs init) <> None -> httpCommandQueue (run evs init) = [].
Proof.
  assert (G : forall evs st, parked_empty st -> parked_empty (run evs st)).
  { induction evs0 as [|e evs0 IH]; intros st H; simpl; [exact H|].
    apply IH, parked_empty_step, H. }
  intros Hw. pose proof (G evs init I) as H. unfold parked_empty in H.
  destruct (waitingGetRes (run evs init)); [exact H | congruence].
Qed.

Lemma cmds_of_app (w1 w2 : list (nat * Z * Payload)) :
  cmds_of (w1 ++ w2) = cmds_of w1 ++ cmds_of w2.
Proof. unfold cmds_of. apply flat_map_app. Qed.

Lemma fifo_step (e : Event) (st : St) :
  cmds_of (httpWritten (step e st)) ++ httpCommandQueue (step e st)
  = cmds_of (httpWritten st) ++ httpCommandQueue st ++ pushed e st.
Proof.
  destruct e as [j t p|j|r m|m|s|n|r|r|r t|]; simpl; try rewrite app_nil_r.
  - unfold sendToPlugin, enqueueForPoll, socket_open. simpl.
    destruct (pluginSocket st) as [s|]; [destruct (Nat.eqb (sock_ready s) 1)|]; simpl;
      [rewrite app_nil_r; reflexivity| |];
      (destruct (waitingGetRes st) as [w|]; simpl; [|reflexivity]);
      destruct (httpCommandQueue st) as [|q0 qs]; simpl;
      rewrite cmds_of_app, <- app_assoc; reflexivity.
  - unfold timeoutFire. destruct (has j (pending st)); reflexivity.
  - unfold handleResult, deliverReply. simpl. rewrite cmds_of_app, app_nil_r.
    destruct (r_id m) as [i|]; [destruct (truthy_str i && has i (pending st))%bool|]; simpl;
      [destruct (r_error m) as [e|]; [destruct (truthy_str e)|]|..]; reflexivity.
  - unfold wsMessage, deliverReply.
    destruct (m_type m) as [ty|], (m_text m) as [tx|];
      try destruct (String.eqb ty "figma_prompt");
      try reflexivity;
      destruct (m_id m) as [i|]; try destruct (truthy_str i && has i (pending st))%bool;
      try destruct (m_error m) as [e|]; try destruct (truthy_str e); reflexivity.
  - reflexivity.
  - unfold wsClose. destruct (pluginSocket st) as [s|];
      [destruct (Nat.eqb (sock_name s) n)|]; reflexivity.
  - unfold handlePoll. destruct (httpCommandQueue st) as [|c q] eqn:Hq; simpl;
      [rewrite Hq; reflexivity|].
    rewrite cmds_of_app, <- app_assoc. reflexivity.
  - unfold pollClose. destruct (waitingGetRes st) as [w|];
      [destruct (Nat.eqb w r)|]; reflexivity.
  - unfold handlePrompt. simpl. rewrite cmds_of_app, app_nil_r. reflexivity.
  - reflexivity.
Qed.

(** The HTTP transport is first-in first-out and loses nothing: from
    startup, the commands written to poll responses, followed by the ones
    still queued, are exactly the commands dispatched while no socket was
    open, in dispatch order. *)
Theorem http_transport_fifo (evs : list Event) :
  cmds_of (httpWritten (run evs init)) ++ httpCommandQueue (run evs init)
  = fallbackLog evs init.
Proof.
  assert (G : forall evs st,
    cmds_of (httpWritten (run evs st)) ++ httpCommandQueue (run evs st)
    = cmds_of (httpWritten st) ++ httpCommandQueue st ++ fallbackLog evs st).
  { induction evs0 as [|e evs0 IH]; intros st; simpl; [rewrite app_nil_r; reflexivity|].
    rewrite IH, app_assoc, fifo_step, <- !app_assoc. reflexivity. }
  rewrite G. reflexivity.
Qed.

Lemma has_map_delete_sub (i j : string) (p : list string) :
  has i (map_delete j p) = true -> has i p = true.
Proof.
  unfold has, map_delete. induction p as [|k p IH]; simpl; [discriminate|].
  destruct (negb (String.eqb j k)); simpl; intros H.
  - apply orb_true_iff in H as [H|H]; [rewrite H; reflexivity|].
    rewrite (IH H), orb_true_r; reflexivity.
  - rewrite (IH H), orb_true_r; reflexivity.
Qed.

(** One event's effect on settlements: none, or exactly one, for an id
    that was pending and is removed. *)
Definition settles_one (st st' : St) : Prop :=
  settled st' = settled st
  \/ exists i o, settled st' = settled st ++ [(i, o)]
                 /\ has i (pending st) = true /\ has i (pending st') = false.

Definition pending_shrinks (st st' : St) : Prop :=
  forall i, has i (pending st') = true -> has i (pending st) = true.

Lemma deliverReply_disc (mid : option string) (v : JVal) (err : option string) (st : St) :
  settles_one st (deliverReply mid v err st) /\ pending_shrinks st (deliverReply mid v err st).
Proof.
  unfold settles_one, pending_shrinks, deliverReply.
  destruct mid as [i|]; [|split; [left; reflexivity | auto]].
  destruct (truthy_str i && has i (pending st))%bool eqn:E; [|split; [left; reflexivity | auto]].
  apply andb_true_iff in E as [_ E].
  split.
  - right. exists i.
    destruct err as [e|]; [destruct (truthy_str e)|]; simpl; eexists;
      (split; [reflexivity | split; [exact E | apply has_map_delete_self]]).
  - intros k.
    destruct err as [e|]; [destruct (truthy_str e)|]; simpl; apply has_map_delete_sub.
Qed.

(** Settlement discipline of every relay event: it settles no promise or
    exactly one, that one is a pending invocation and is removed from
    [pending] in the same step; and no event other than a dispatch adds an
    id to [pending]. *)
Theorem event_settles_at_most_one_pending (e : Event) (st : St) :
  settles_one st (step e st) /\
  match e with
  | EvDispatch _ _ _ => True
  | _ => pending_shrinks st (step e st)
  end.
Proof.
  assert (Hid : settles_one st st /\ pending_shrinks st st)
    by (split; [left; reflexivity | intros i H; exact H]).
  destruct e as [j t p|j|r m|m|s|n|r|r|r t|]; simpl.
  - split; [|exact I]. left. unfold sendToPlugin, enqueueForPoll. simpl.
    destruct (pluginSocket st) as [s|]; try destruct (Nat.eqb (sock_ready s) 1); simpl;
      try reflexivity;
      destruct (waitingGetRes st); simpl; try reflexivity;
      destruct (httpCommandQueue st); reflexivity.
  - unfold timeoutFire. destruct (has j (pending st)) eqn:E; [|exact Hid].
    split.
    + right. exists j, (Rejected "Plugin timeout").
      split; [reflexivity | split; [exact E | apply has_map_delete_self]].
    + intros i. apply has_map_delete_sub.
  - unfold handleResult. apply deliverReply_disc.
  - unfold wsMessage.
    destruct (m_type m) as [ty|], (m_text m) as [tx|];
      try destruct (String.eqb ty "figma_prompt");
      try apply deliverReply_disc; exact Hid.
  - exact Hid.
  - unfold wsClose. destruct (pluginSocket st) as [s|];
      [destruct (Nat.eqb (sock_name s) n)|]; exact Hid.
  - unfold handlePoll. destruct (httpCommandQueue st); exact Hid.
  - unfold pollClose. destruct (waitingGetRes st) as [w|];
      [destruct (Nat.eqb w r)|]; exact Hid.
  - exact Hid.
  - exact Hid.
Qed.

Lemma map_delete_absent (i : string) (p : list string) :
  has i p = false -> map_delete i p = p.
Proof.
  unfold has, map_delete. induction p as [|k p IH]; simpl; [reflexivity|].
  intros H. apply orb_false_iff in H. destruct H as [H1 H2].
  rewrite H1. simpl. f_equal. exact (IH H2).
Qed.

(** An MCP tool call over the HTTP fallback, end to end: with no open
    socket and a poll parked on an empty queue, a tool other than
    [get_figma_prompt] is written at once to the parked poll under the
    fresh id and awaited; when the plugin posts [{ id, result, error }]
    to [/result], the pending table is back to what it was, the
    invocation is settled once, and the MCP client receives
    ["Error: " + error] flagged [isError] when [error] is non-empty, and
    the pretty-printed result otherwise. *)
Theorem mcp_tool_call_over_poll (stringify pretty : JVal -> string)
    (name : string) (args : option JsonObject) (id : string) (st : St)
    (r res : nat) (v : JVal) (e : option string) :
  name <> "get_figma_prompt" -> socket_open st = false -> waitingGetRes st = Some r ->
  httpCommandQueue st = [] -> truthy_str id = true -> has id (pending st) = false ->
  let params := match args with Some a => a | None => [] end in
  let st1 := snd (Mcp.mcpCallTool stringify name args id st) in
  let st2 := handleResult res (mkResultMsg (Some id) v e) st1 in
  fst (Mcp.mcpCallTool stringify name args id st) = Mcp.ToolAwait id /\
  httpWritten st1 = httpWritten st ++ [(r, 200%Z, PCmd (mkCmd id name params))] /\
  waitingGetRes st1 = None /\ httpCommandQueue st1 = [] /\
  pending st2 = pending st /\
  exists o, settled st2 = settled st ++ [(id, o)] /\
    Mcp.mcpToolReply pretty o
    = match e with
      | Some m => if truthy_str m then Mcp.mkToolContent ("Error: " ++ m) true
                  else Mcp.mkToolContent (pretty v) false
      | None => Mcp.mkToolContent (pretty v) false
      end.
Proof.
  intros Hn Hs Hw Hq Hid Hp. cbv zeta.
  assert (Hsend : sendToPlugin id name (match args with Some a => a | None => [] end) st
    = mkSt (pluginSocket st) (pending st ++ [id]) [] None (lastFigmaPrompt st) (wsSent st)
        (httpWritten st ++ [(r, 200%Z, PCmd (mkCmd id name (match args with Some a => a | None => [] end)))])
        (settled st)).
  { destruct st as [ps pe q wg lp ws hw se]; simpl in *. subst.
    unfold sendToPlugin, map_set. simpl. rewrite Hp.
    unfold socket_open in Hs. simpl in Hs.
    destruct ps as [sk|]; [rewrite Hs|]; reflexivity. }
  unfold Mcp.mcpCallTool.
  destruct (String.eqb_spec name "get_figma_prompt") as [E|_]; [contradiction|].
  simpl fst; simpl snd. rewrite Hsend.
  split; [reflexivity|]. split; [reflexivity|]. split; [reflexivity|]. split; [reflexivity|].
  unfold handleResult, deliverReply. simpl. rewrite Hid.
  assert (Hh : has id (pending st ++ [id]) = true).
  { unfold has. rewrite existsb_app. simpl. rewrite String.eqb_refl, orb_true_r. reflexivity. }
  rewrite Hh. simpl.
  assert (Hd : map_delete id (pending st ++ [id]) = pending st).
  { unfold map_delete. rewrite filter_app. simpl. rewrite String.eqb_refl. simpl.
    rewrite app_nil_r. exact (map_delete_absent id (pending st) Hp). }
  destruct e as [m|].
  - destruct (truthy_str m).
    + split; [exact Hd|]. exists (Rejected m). split; reflexivity.
    + split; [exact Hd|]. exists (Resolved v). split; reflexivity.
  - split; [exact Hd|]. exists (Resolved v). split; reflexivity.
Qed.

End RelayExtras.

Module OpenAIExtras.
Import OpenAI OpenAIProofs.

(** The first request's [input]: at most the last 20 conversation
    messages, keeping only user and assistant turns with non-empty
    content, in order, followed by the new user message. *)
Theorem buildInput_shape (message : string) (conversation : list ChatMessage) :
  exists prefix,
    buildInput message conversation = prefix ++ [("user", message)] /\
    length prefix <= 20 /\
    forall x, In x prefix ->
      exists m, In m conversation /\ x = (cm_role m, cm_content m) /\
                (cm_role m = "user" \/ cm_role m = "assistant") /\ cm_content m <> "".
Proof.
  unfold buildInput.
  set (sel := filter _ (slice_last 20 conversation)).
  exists (map (fun m => (cm_role m, cm_content m)) sel). split; [reflexivity|]. split.
  - rewrite length_map. unfold sel.
    eapply Nat.le_trans; [apply filter_length_le|].
    unfold slice_last. rewrite length_skipn. lia.
  - intros x Hx. apply in_map_iff in Hx as [m [<- Hm]].
    unfold sel in Hm. apply filter_In in Hm as [Hm Hf].
    apply andb_true_iff in Hf as [Hc Hr].
    exists m. split; [|split; [reflexivity|split]].
    + unfold slice_last in Hm.
      rewrite <- (firstn_skipn (length conversation - 20) conversation).
      apply in_or_app. right. exact Hm.
    + apply orb_true_iff in Hr as [Hr|Hr]; apply String.eqb_eq in Hr; auto.
    + unfold truthy_str in Hc. apply negb_true_iff, String.eqb_neq in Hc. exact Hc.
Qed.

Lemma function_call_items_le (f : Item -> list FunctionCall) (l : list Item) :
  (forall x, length (f x) <= 1) -> length (flat_map f l) <= length l.
Proof.
  intros Hf. induction l as [|x l IH]; simpl; [lia|].
  rewrite length_app. specialize (Hf x). lia.
Qed.

(** [extractOpenAIFunctionCalls] returns at most one call per output item,
    and every call it returns has a non-empty [name] and [call_id]. *)
Theorem extracted_calls_well_formed (response : Response) :
  length (extractOpenAIFunctionCalls response) <= length (opt_list (output response)) /\
  forall c, In c (extractOpenAIFunctionCalls response) ->
    fc_name c <> "" /\ fc_call_id c <> "".
Proof.
  unfold extractOpenAIFunctionCalls. split.
  - apply function_call_items_le. intros item.
    destruct (item_type item) as [ty|]; simpl; [|lia].
    destruct (String.eqb ty "function_call"); simpl; [|lia].
    destruct (item_name item), (item_call_id item); simpl; try lia.
    destruct (truthy_str _ && truthy_str _)%bool; simpl; lia.
  - intros c Hc. apply in_flat_map in Hc as [item [_ Hc]].
    destruct (item_type item) as [ty|]; [|destruct Hc].
    destruct (String.eqb ty "function_call"); [|destruct Hc].
    destruct (item_name item) as [nm|], (item_call_id item) as [ci|]; try destruct Hc.
    destruct (truthy_str nm && truthy_str ci)%bool eqn:E; [|destruct Hc].
    destruct Hc as [<-|[]]. apply andb_true_iff in E as [E1 E2].
    unfold truthy_str in E1, E2. apply negb_true_iff, String.eqb_neq in E1, E2.
    simpl. auto.
Qed.


(** When the first response asks for no function call, [runOpenAIAgent]
    runs no tool and sends no further request: it answers with that
    response's text and an empty audit trail. *)
Theorem openai_no_calls_single_request
    (endpoint : nat -> Request -> string + Response)
    (runToolOutcome : nat -> string -> JsonObject -> string + JVal)
    (parseArgs : string -> JsonObject)
    (message : string) (conversation : list ChatMessage)
    (model apiKey researchContext designProfile : string) (st0 : AgentSt) (r0 : Response) :
  endpoint (length (requests st0))
    (ReqInitial model designProfile researchContext (buildInput message conversation)) = inr r0 ->
  extractOpenAIFunctionCalls r0 = [] ->
  runOpenAIAgent endpoint runToolOutcome parseArgs message conversation model
    apiKey researchContext designProfile st0
  = inr ((finalText r0, []),
         mkAgentSt (ntool st0)
           (requests st0 ++ [ReqInitial model designProfile researchContext
                               (buildInput message conversation)])
           (responses st0 ++ [r0])).
Proof.
  intros He Hc. unfold runOpenAIAgent, bind, createOpenAIResponse.
  rewrite He. simpl. rewrite Hc. reflexivity.
Qed.

(** The audit entry and the [function_call_output] the [try]/[catch] of
    the inner loop records for one call with outcome [o]. *)
Definition toolEntry (o : string + JVal) (c : FunctionCall) (args : JsonObject) : ExecutedToolCall :=
  match o with
  | inr result => mkExec (fc_name c) args (Some result) None
  | inl messageText => mkExec (fc_name c) args None (Some messageText)
  end.
Definition toolOutput (o : string + JVal) (c : FunctionCall) : CallOutput :=
  match o with
  | inr result => mkOutput (fc_call_id c) (JObj [("ok", JBool true); ("result", result)])
  | inl messageText => mkOutput (fc_call_id c) (JObj [("ok", JBool false); ("error", JStr messageText)])
  end.

Lemma runCalls_cons (runToolOutcome : nat -> string -> JsonObject -> string + JVal)
    (parseArgs : string -> JsonObject) (c : FunctionCall) (rest : list FunctionCall) tc outs st :
  let args := parseArgs (fc_arguments c) in
  let o := runToolOutcome (ntool st) (fc_name c) args in
  runCalls runToolOutcome parseArgs (c :: rest) tc outs st
  = runCalls runToolOutcome parseArgs rest (tc ++ [toolEntry o c args]) (outs ++ [toolOutput o c])
      (mkAgentSt (S (ntool st)) (requests st) (responses st)).
Proof.
  simpl. unfold bind, runTool.
  destruct (runToolOutcome (ntool st) (fc_name c) (parseArgs (fc_arguments c))); reflexivity.
Qed.

Lemma runCalls_spec (runToolOutcome : nat -> string -> JsonObject -> string + JVal)
    (parseArgs : string -> JsonObject) (calls : list FunctionCall) :
  forall tc outs st, exists tcs outs',
    runCalls runToolOutcome parseArgs calls tc outs st
      = inr ((tc ++ tcs, outs ++ outs'),
             mkAgentSt (ntool st + length calls) (requests st) (responses st)) /\
    length tcs = length calls /\ length outs' = length calls /\
    forall k c, nth_error calls k = Some c ->
      let args := parseArgs (fc_arguments c) in
      let o := runToolOutcome (ntool st + k) (fc_name c) args in
      nth_error tcs k = Some (toolEntry o c args) /\ nth_error outs' k = Some (toolOutput o c).
Proof.
  induction calls as [|c rest IH]; intros tc outs st.
  - exists [], []. simpl. rewrite !app_nil_r, Nat.add_0_r.
    split; [destruct st; reflexivity|]. split; [reflexivity|]. split; [reflexivity|].
    intros k c H. destruct k; discriminate.
  - rewrite runCalls_cons.
    set (args := parseArgs (fc_arguments c)).
    set (o := runToolOutcome (ntool st) (fc_name c) args).
    destruct (IH (tc ++ [toolEntry o c args]) (outs ++ [toolOutput o c])
                (mkAgentSt (S (ntool st)) (requests st) (responses st)))
      as [tcs [outs' [H1 [H2 [H3 H4]]]]].
    exists (toolEntry o c args :: tcs), (toolOutput o c :: outs'). simpl in H1, H4.
    split; [rewrite H1, <- !app_assoc; simpl; do 3 f_equal; lia|].
    simpl. split; [lia|]. split; [lia|].
    intros [|k] c' Hk; simpl in Hk |- *.
    + injection Hk as <-. rewrite Nat.add_0_r. split; reflexivity.
    + replace (ntool st + S k) with (S (ntool st) + k) by lia. apply H4, Hk.
Qed.

(** The inner loop of [runOpenAIAgent] answers every requested call, in
    order: one audit entry and one [function_call_output] carrying the
    call's [call_id] per call, [{ ok: true, result }] when the relayed
    invocation resolves and [{ ok: false, error }] when it rejects; a
    rejection does not stop the calls after it, and nothing is sent to the
    endpoint meanwhile. *)
Theorem function_calls_answered_in_order
    (runToolOutcome : nat -> string -> JsonObject -> string + JVal)
    (parseArgs : string -> JsonObject) (calls : list FunctionCall) (st : AgentSt) :
  exists tcs outs,
    runCalls runToolOutcome parseArgs calls [] [] st
      = inr ((tcs, outs), mkAgentSt (ntool st + length calls) (requests st) (responses st)) /\
    length tcs = length calls /\ length outs = length calls /\
    forall k c, nth_error calls k = Some c ->
      let args := parseArgs (fc_arguments c) in
      let o := runToolOutcome (ntool st + k) (fc_name c) args in
      nth_error tcs k = Some (toolEntry o c args) /\ nth_error outs k = Some (toolOutput o c).
Proof. exact (runCalls_spec runToolOutcome parseArgs calls [] [] st). Qed.

(** Follow-up requests chained on the responses: each follow-up names
    the response received before it, whose function calls it answers, in
    order, with the outputs of the tool invocations numbered from [n]. *)
Fixpoint chain (runToolOutcome : nat -> string -> JsonObject -> string + JVal)
    (parseArgs : string -> JsonObject) (model : string) (n : nat)
    (prev : Response) (reqs : list Request) (resps : list Response) : Prop :=
  match reqs, resps with
  | [], [] => True
  | q :: qs, r :: rs =>
      extractOpenAIFunctionCalls prev <> [] /\
      (exists outs, q = ReqFollowUp model (resp_id prev) outs /\
         length outs = length (extractOpenAIFunctionCalls prev) /\
         forall k c, nth_error (extractOpenAIFunctionCalls prev) k = Some c ->
           nth_error outs k
           = Some (toolOutput (runToolOutcome (n + k) (fc_name c) (parseArgs (fc_arguments c))) c)) /\
      chain runToolOutcome parseArgs model (n + length (extractOpenAIFunctionCalls prev)) r qs rs
  | _, _ => False
  end.

Lemma agentLoop_chain (endpoint : nat -> Request -> string + Response)
    (runToolOutcome : nat -> string -> JsonObject -> string + JVal)
    (parseArgs : string -> JsonObject) (model : string) (fuel : nat) :
  forall guard response tc st r' tc' st',
    agentLoop endpoint runToolOutcome parseArgs model fuel guard response tc st
      = inr ((r', tc'), st') ->
    exists reqs resps, requests st' = requests st ++ reqs /\
                       responses st' = responses st ++ resps /\
                       chain runToolOutcome parseArgs model (ntool st) response reqs resps.
Proof.
  induction fuel as [|fuel IH]; intros guard response tc st r' tc' st' H; simpl in H.
  - injection H as <- <- <-. exists [], []. rewrite !app_nil_r. repeat split.
  - destruct (Nat.ltb guard 8).
    2:{ injection H as <- <- <-. exists [], []. rewrite !app_nil_r. repeat split. }
    destruct (extractOpenAIFunctionCalls response) as [|c cs] eqn:Hc.
    { injection H as <- <- <-. exists [], []. rewrite !app_nil_r. repeat split. }
    unfold bind at 1 in H.
    destruct (runCalls_spec runToolOutcome parseArgs (c :: cs) tc [] st)
      as [tcs [outs1 [Hr [_ [Hlen Hnth]]]]].
    rewrite Hr in H. unfold bind, createOpenAIResponse in H. simpl in H.
    destruct (endpoint (length (requests st))
                (ReqFollowUp model (resp_id response) outs1)) as [e|r1] eqn:He;
      [discriminate|].
    destruct (IH _ _ _ _ _ _ _ H) as [reqs [resps [A [B C]]]]. simpl in A, B, C.
    exists (ReqFollowUp model (resp_id response) outs1 :: reqs), (r1 :: resps).
    rewrite A, B, <- !app_assoc. split; [reflexivity|]. split; [reflexivity|].
    simpl. rewrite Hc. split; [discriminate|]. split; [|exact C].
    exists outs1. split; [reflexivity|]. split; [exact Hlen|].
    intros k c0 Hk. exact (proj2 (Hnth k c0 Hk)).
Qed.

(** Every request of one [runOpenAIAgent] run uses the same [model]: the
    initial request first, then requests and responses alternate one to
    one, and each follow-up carries as [previous_response_id] the id of
    the response received just before it and as [input] one
    [function_call_output] per function call of that response, in order,
    holding the outcome of running that call (tool invocations numbered
    on from [ntool st0]). *)
Theorem openai_requests_chain
    (endpoint : nat -> Request -> string + Response)
    (runToolOutcome : nat -> string -> JsonObject -> string + JVal)
    (parseArgs : string -> JsonObject)
    (message : string) (conversation : list ChatMessage)
    (model apiKey researchContext designProfile : string) (st0 : AgentSt) :
  match runOpenAIAgent endpoint runToolOutcome parseArgs message conversation model
          apiKey researchContext designProfile st0 with
  | inl _ => True
  | inr (_, st) =>
      exists r0 reqs resps,
        requests st = requests st0
          ++ ReqInitial model designProfile researchContext (buildInput message conversation) :: reqs /\
        responses st = responses st0 ++ r0 :: resps /\
        chain runToolOutcome parseArgs model (ntool st0) r0 reqs resps
  end.
Proof.
  unfold runOpenAIAgent, bind at 1, createOpenAIResponse.
  destruct (endpoint (length (requests st0)) _) as [e|r0] eqn:He0; [exact I|].
  unfold bind.
  set (st1 := mkAgentSt (ntool st0) (requests st0 ++ [ReqInitial model designProfile researchContext
                   (buildInput message conversation)]) (responses st0 ++ [r0])).
  destruct (agentLoop endpoint runToolOutcome parseArgs model 8 0 r0 [] st1)
    as [e|[[r' tc'] st']] eqn:Hl; [exact I|].
  simpl.
  destruct (agentLoop_chain endpoint runToolOutcome parseArgs model 8 0 r0 [] st1 r' tc' st' Hl)
    as [reqs [resps [A [B C]]]].
  exists r0, reqs, resps. subst st1. simpl in A, B, C.
  rewrite A, B, <- !app_assoc. auto.
Qed.

End OpenAIExtras.

Module LocalAgentExtras.
Import LocalAgent LocalAgentProofs.

Lemma successCount_all (l : list ExecutedToolCall) :
  (forall c, In c l -> tc_error c = None) -> successCount l = length l.
Proof.
  intros H. unfold successCount. rewrite forallb_filter_id; [reflexivity|].
  apply forallb_forall. intros c Hc. rewrite (H c Hc). reflexivity.
Qed.

(** When the relay answers every invocation and the root frame comes back
    with a usable id, the local agent reports that it generated a layout
    with [1 + recipeLength] Figma actions: 8 for a button request, 22 for a
    dashboard request, 23 for a landing page. *)
Theorem local_agent_all_success_summary
    (exec : nat -> string -> JsonObject -> string + JVal) (firstCall : nat)
    (message researchContext designProfile : string) :
  (forall n tool params, exists v, exec n tool params = inr v) ->
  rootReady exec firstCall (blended message researchContext designProfile) = true ->
  fst (fst (runLocalAgent exec firstCall message researchContext designProfile))
  = ("Local agent generated a structured layout with "
     ++ nat_to_string (1 + recipeLength (blended message researchContext designProfile))
     ++ " Figma actions. Review and iterate from this frame-first starting point.")%string.
Proof.
  intros Hok Hr.
  destruct (localAgent_spec exec firstCall message researchContext designProfile)
    as [[_ Hinv] Hs].
  rewrite Hr in Hs. destruct Hs as [Hlen Hsum].
  unfold runLocalAgent.
  destruct (localAgent exec message researchContext designProfile (mkLSt firstCall []))
    as [a st] eqn:E.
  simpl in *. rewrite Hsum.
  assert (Hall : forall c, In c (toolCalls st) -> tc_error c = None).
  { intros c Hc. apply In_nth_error in Hc as [k Hk].
    specialize (Hinv k c Hk). unfold entry_ok in Hinv.
    destruct (Hok (firstCall + k) (tc_tool c) (tc_params c)) as [v Hv].
    rewrite Hv in Hinv. apply Hinv. }
  unfold summary. rewrite (successCount_all _ Hall), Nat.sub_diag. simpl.
  rewrite Hlen. reflexivity.
Qed.

End LocalAgentExtras.

Module ChatExtras.
Import Relay Chat.

(** [/chat] answers 200 only when the message is not blank, the bridge is
    ready, the provider (lower-cased, [local] when absent) is [local] or
    [openai], an [openai] turn has a usable API key, and the planner
    returned; every other request gets 400. *)
Theorem chat_ok_requires_gate (envKey : option string)
    (runLocal : string -> string -> string -> St ->
       (string + (string * list ExecutedToolCall)) * St)
    (runOpenAI : string -> list ChatMessage -> string -> string -> string -> string -> St ->
       (string + (string * list ExecutedToolCall)) * St)
    (payload : ChatRequest) (st : St) :
  let provider := to_lower (coalesce (provider payload) "local") in
  fst (fst (chatRoute envKey runLocal runOpenAI payload st)) = 200 ->
  trim (coalesce (message payload) "") <> "" /\
  pluginBridgeReady st = true /\
  (provider = "local" \/
   (provider = "openai" /\ truthy_opt (resolveApiKey (apiKey payload) envKey) = true)).
Proof.
  intros provider H.
  unfold chatRoute, handleChatRequest in H. fold provider in H. cbv zeta in H.
  destruct (truthy_str (trim (coalesce (message payload) ""))) eqn:Hm; simpl in H;
    [|discriminate].
  destruct (pluginBridgeReady st) eqn:Hb; simpl in H; [|discriminate].
  unfold truthy_str in Hm. apply negb_true_iff, String.eqb_neq in Hm.
  split; [exact Hm|]. split; [reflexivity|].
  destruct (String.eqb_spec provider "local") as [Hl|Hl]; [left; exact Hl|right].
  destruct (String.eqb_spec provider "openai") as [Ho|Ho].
  - split; [exact Ho|].
    destruct (truthy_opt (resolveApiKey (apiKey payload) envKey)); [reflexivity|].
    simpl in H. discriminate.
  - exfalso. destruct (String.eqb provider "cursor" || String.eqb provider "lovable")%bool;
      simpl in H; discriminate.
Qed.


End ChatExtras.

Module PortsExtras.
Import Ports.

Definition retry_inv (s : NSt) : Prop :=
  portRetryPending s = match retryAt s with Some _ => true | None => false end.

Lemma schedule_inv (w h : nat) (s : NSt) :
  retry_inv s -> retry_inv (schedulePortRetry w h s).
Proof.
  unfold retry_inv, schedulePortRetry. intros H.
  destruct (portRetryPending s) eqn:E; [rewrite E; exact H | reflexivity].
Qed.

Lemma try_inv (w h : nat) (s : NSt) :
  retry_inv s -> retry_inv (tryPortPair w h s).
Proof.
  unfold tryPortPair. intros H.
  destruct (Nat.ltb FIGSOR_PORT_MAX h); [exact H|].
  destruct (httpListeningOn (set_attempt (w, h) (set_counter (S (portBindAttemptCounter s)) s)));
    [apply schedule_inv|]; exact H.
Qed.

(** The negotiator never has more than one retry in flight: in every state
    reached from startup, [portRetryPending] is set exactly when a
    [runRetry] is scheduled, and a further retry request made while one is
    pending changes nothing. *)
Theorem single_retry_in_flight (evs : list NEv) :
  let s := nrun evs init in
  portRetryPending s = match retryAt s with Some _ => true | None => false end /\
  forall w h, portRetryPending s = true -> schedulePortRetry w h s = s.
Proof.
  assert (G : forall evs s, retry_inv s -> retry_inv (nrun evs s)).
  { induction evs0 as [|e evs0 IH]; intros s H; simpl; [exact H|]. apply IH.
    destruct e as [w h|id w h|inUse|id w h a|id w h inUse|id w h|]; simpl.
    - apply try_inv, H.
    - destruct (negb (Nat.eqb id (portBindAttemptCounter s))); exact H.
    - destruct (attemptPorts s) as [w h]. destruct inUse; [apply schedule_inv|]; exact H.
    - destruct (negb (Nat.eqb id (portBindAttemptCounter s))); [exact H|].
      destruct (negb a); [apply schedule_inv|]; exact H.
    - destruct (negb (Nat.eqb id (portBindAttemptCounter s))); [exact H|].
      destruct inUse; [apply schedule_inv|]; exact H.
    - destruct (opt_eqb (wss s) (Some w)); simpl;
        destruct (negb (Nat.eqb id (portBindAttemptCounter s))); exact H.
    - destruct (retryAt s) as [[w h]|] eqn:E; [|exact H].
      apply try_inv. reflexivity. }
  intros s. split; [exact (G evs init eq_refl)|].
  intros w h Hp. unfold schedulePortRetry. rewrite Hp. reflexivity.
Qed.

End PortsExtras.

Module ExtraWitnesses.

Lemma parked_poll_implies_empty_queue_witness :
  Relay.waitingGetRes (Relay.run [Relay.EvPoll 1] Relay.init) <> None /\
  Relay.httpCommandQueue (Relay.run [Relay.EvPoll 1] Relay.init) = [].
Proof.
  assert (H : Relay.waitingGetRes (Relay.run [Relay.EvPoll 1] Relay.init) <> None)
    by (simpl; discriminate).
  split; [exact H | exact (RelayExtras.parked_poll_implies_empty_queue _ H)].
Defined.

(** An endpoint whose responses carry text and no function call. *)
Definition text_endpoint (n : nat) (req : OpenAI.Request) : string + OpenAI.Response :=
  inr (OpenAI.mkResponse "resp-0" (Some " Added a card. ") None).

Definition ok_tool (n : nat) (tool : string) (params : JsonObject) : string + JVal := inr JNull.

Lemma openai_no_calls_single_request_witness :
  OpenAI.extractOpenAIFunctionCalls (OpenAI.mkResponse "resp-0" (Some " Added a card. ") None) = [] /\
  OpenAI.runOpenAIAgent text_endpoint ok_tool (fun _ => []) "add a card" [] "gpt-5-mini" "key" "" ""
    (OpenAI.mkAgentSt 0 [] [])
  = inr ((OpenAI.finalText (OpenAI.mkResponse "resp-0" (Some " Added a card. ") None), []),
         OpenAI.mkAgentSt 0
           ([] ++ [OpenAI.ReqInitial "gpt-5-mini" "" "" (OpenAI.buildInput "add a card" [])])
           ([] ++ [OpenAI.mkResponse "resp-0" (Some " Added a card. ") None])).
Proof.
  split; [reflexivity|].
  apply (OpenAIExtras.openai_no_calls_single_request text_endpoint ok_tool (fun _ => [])
           "add a card" [] "gpt-5-mini" "key" "" "" (OpenAI.mkAgentSt 0 [] [])
           (OpenAI.mkResponse "resp-0" (Some " Added a card. ") None)); reflexivity.
Defined.

(** A relay on which every invocation succeeds and returns a node id. *)
Definition ok_exec (n : nat) (tool : string) (params : JsonObject) : string + JVal :=
  inr (JObj [("id", JStr "1:2")]).

Lemma local_agent_all_success_summary_witness :
  LocalAgent.rootReady ok_exec 0 (LocalAgent.blended "make a button" "" "") = true /\
  fst (fst (LocalAgent.runLocalAgent ok_exec 0 "make a button" "" ""))
  = ("Local agent generated a structured layout with "
     ++ LocalAgent.nat_to_string (1 + LocalAgent.recipeLength (LocalAgent.blended "make a button" "" ""))
     ++ " Figma actions. Review and iterate from this frame-first starting point.")%string.
Proof.
  split; [vm_compute; reflexivity|].
  apply LocalAgentExtras.local_agent_all_success_summary.
  - intros n tool params. eexists. reflexivity.
  - vm_compute. reflexivity.
Defined.

Definition idle_local (m rc dp : string) (st : Relay.St)
  : (string + (string * list ExecutedToolCall)) * Relay.St := (inr ("Done.", []), st).
Definition idle_openai (m : string) (c : list ChatMessage) (model key rc dp : string) (st : Relay.St)
  : (string + (string * list ExecutedToolCall)) * Relay.St := (inr ("Done.", []), st).

(** A relay with a parked poll, so the bridge is ready. *)
Definition parked : Relay.St := Relay.mkSt None [] [] (Some 7) None [] [] [].

Lemma chat_ok_requires_gate_witness :
  fst (fst (Chat.chatRoute None idle_local idle_openai
              (Chat.mkChatRequest (Some "Local") None None (Some "make a card") None None None)
              parked)) = 200 /\
  trim "make a card" <> "" /\ Chat.pluginBridgeReady parked = true /\
  (to_lower "Local" = "local" \/
   (to_lower "Local" = "openai" /\
    Chat.truthy_opt (Chat.resolveApiKey None None) = true)).
Proof.
  assert (H : fst (fst (Chat.chatRoute None idle_local idle_openai
              (Chat.mkChatRequest (Some "Local") None None (Some "make a card") None None None)
              parked)) = 200) by (vm_compute; reflexivity).
  split; [exact H|].
  exact (ChatExtras.chat_ok_requires_gate None idle_local idle_openai
           (Chat.mkChatRequest (Some "Local") None None (Some "make a card") None None None)
           parked H).
Defined.



(** A plugin polling over HTTP (poll 7 parked, no socket), and a
    [create_frame] call whose reply carries an error. *)
Definition polling : Relay.St := Relay.mkSt None [] [] (Some 7) None [] [] [].

Lemma mcp_tool_call_over_poll_witness :
  "create_frame" <> "get_figma_prompt" /\
  Relay.socket_open polling = false /\
  Relay.waitingGetRes polling = Some 7 /\
  Relay.httpCommandQueue polling = [] /\
  truthy_str "chat-tool-1" = true /\
  Relay.has "chat-tool-1" (Relay.pending polling) = false /\
  Relay.pending (Relay.handleResult 8 (Relay.mkResultMsg (Some "chat-tool-1") JNull (Some "Node not found"))
     (snd (Mcp.mcpCallTool (fun _ => "") "create_frame" None "chat-tool-1" polling)))
  = [].
Proof.
  assert (Hn : "create_frame" <> "get_figma_prompt") by discriminate.
  assert (Hp := proj1 (proj2 (proj2 (proj2 (proj2
    (RelayExtras.mcp_tool_call_over_poll (fun _ => "") (fun _ => "") "create_frame" None
       "chat-tool-1" polling 7 8 JNull (Some "Node not found")
       Hn eq_refl eq_refl eq_refl eq_refl eq_refl)))))).
  split; [exact Hn|]. split; [reflexivity|]. split; [reflexivity|].
  split; [reflexivity|]. split; [reflexivity|]. split; [reflexivity|].
  exact Hp.
Defined.

End ExtraWitnesses.

Module PortsWitnesses.
Import Ports PortsNode.

(** Another process holds 3055 and 3056; every other port is free. *)
Definition taken (p : nat) : bool := (Nat.eqb p 3055 || Nat.eqb p 3056)%bool.
Definition occ_httpBind (p : nat) : BindOutcome := if taken p then BindInUse else BindOk.
Definition occ_probeFree (p : nat) : bool := negb (taken p).
Definition occ_wsBind (p : nat) : BindOutcome := if taken p then BindInUse else BindOk.

Lemma port_negotiation_witness :
  exited (last (startupStates occ_httpBind occ_probeFree occ_wsBind 3055) (initAt 3055)) = false
  /\ health (last (startupStates occ_httpBind occ_probeFree occ_wsBind 3055) (initAt 3055))
     = Some (3057, 3058).
Proof.
  split.
  - apply (PortsProofs.port_negotiation_holds_advertised_pair
             occ_httpBind occ_probeFree occ_wsBind 3055).
    + intros p. unfold occ_httpBind, occ_wsBind.
      destruct (taken p); split; discriminate.
    + exists 1. split; [unfold FIGSOR_PORT_MAX; lia | vm_compute; reflexivity].
  - vm_compute. reflexivity.
Defined.

End PortsWitnesses.
